(** * eighth-dimension: the data-derivation pipeline of the brainwave page

    A shallow embedding of the algorithmic core of the two page scripts,
    [brainwave.js] (the reduced page) and its richer sibling: the
    identifier codec, the tail deduplicator, the band normaliser, the
    two dominant-pattern classifiers, the fortune selector and the
    waveform synthesiser.

    Conventions of the embedding.
    - The strings the codec inspects are lists of UTF-16 code units
      ([N]); labels and messages, which the code only compares and
      concatenates, are [string]s.
    - Numbers are exact: integers in [Z], band powers, scores and
      proportions in [Q], with literals such as [0.225] and [2 / 3]
      standing for the rationals they name.  IEEE rounding, infinities
      and negative zero are outside the model; an integer beyond 2^53
      (a numeral of more than fifteen digits) is itself here and its
      nearest double in JavaScript.  [NaN] is modelled where a string is
      read as a number ([parseInt]).
    - [Math.pow], [Math.sin] and [Math.PI] are parameters.
    - [throw] and [try ... catch] are modelled by the error monad
      [result]; [null] and [undefined] by [None]. *)

From Stdlib Require Import ZArith NArith QArith Qround Qabs Qminmax Lia Lqa ZifyNat Bool List String Ascii.
From stdpp Require Import base option list strings gmap.
Import ListNotations.

Set Default Proof Using "Type".

(** ** Exceptions *)

Inductive exn : Type :=
| InvalidCharacterError
| RangeError.

Inductive result (A : Type) : Type :=
| Ok (a : A)
| Throw (e : exn).
Arguments Ok {A} a.
Arguments Throw {A} e.

Definition result_bind {A B} (f : A -> result B) (m : result A) : result B :=
  match m with
  | Ok a => f a
  | Throw e => Throw e
  end.

#[export] Instance result_mbind : MBind result := @result_bind.
#[export] Instance result_mret : MRet result := @Ok.

(** [try { body } catch (e) { handler }] *)
Definition try_catch {A} (body : result A) (handler : exn -> result A) : result A :=
  match body with
  | Ok a => Ok a
  | Throw e => handler e
  end.

(** ** Strings *)

Module JsString.

Definition jsstring : Type := list N.

(** A literal: the code units of an ASCII (Latin-1) string. *)
Definition str (s : string) : jsstring :=
  List.map N_of_ascii (list_ascii_of_string s).

Definition chr (a : ascii) : N := N_of_ascii a.

Definition is_digit (c : N) : bool := ((48 <=? c) && (c <=? 57))%N.

(** [c.repeat(count)]: a [RangeError] for a negative count. *)
Definition String_repeat (c : N) (count : Z) : result jsstring :=
  if (count <? 0)%Z then Throw RangeError
  else Ok (replicate (Z.to_nat count) c).

(** [s.replace(/=+$/, '')]: the leftmost match of [=+$] is the whole
    trailing run of '=' signs. *)
Fixpoint drop_leading (c : N) (s : jsstring) : jsstring :=
  match s with
  | [] => []
  | x :: t => if (x =? c)%N then drop_leading c t else s
  end.

Definition strip_trailing_eq (s : jsstring) : jsstring :=
  rev (drop_leading 61%N (rev s)).

(** The longest prefix of [s] satisfying [p], and the rest. *)
Fixpoint span (p : N -> bool) (s : jsstring) : jsstring * jsstring :=
  match s with
  | [] => ([], [])
  | x :: t => if p x then let '(a, b) := span p t in (x :: a, b) else ([], s)
  end.

Definition nonempty (s : jsstring) : bool :=
  match s with [] => false | _ :: _ => true end.

End JsString.
Import JsString.

(** ** Base64: [btoa] and [atob]

    The two browser functions, after RFC 4648 and the "forgiving-base64
    decode" of the WHATWG Infra standard. *)

Module Base64.

(** The alphabet [A-Z a-z 0-9 + /], by position. *)
Definition b64_char (i : N) : N :=
  (if i <? 26 then i + 65
   else if i <? 52 then i + 71
   else if i <? 62 then i - 4
   else if i =? 62 then 43
   else 47)%N.

Definition b64_index (c : N) : option N :=
  (if (65 <=? c) && (c <=? 90) then Some (c - 65)
   else if (97 <=? c) && (c <=? 122) then Some (c - 71)
   else if (48 <=? c) && (c <=? 57) then Some (c + 4)
   else if c =? 43 then Some 62
   else if c =? 47 then Some 63
   else None)%N.

Definition pad : N := 61%N.

(** Three bytes give four characters; a tail of one or two bytes is
    padded with '='. *)
Fixpoint b64_encode (bs : list N) : jsstring :=
  match bs with
  | [] => []
  | [a] =>
      [b64_char (a / 4); b64_char ((a mod 4) * 16); pad; pad]%N
  | [a; b] =>
      [b64_char (a / 4); b64_char ((a mod 4) * 16 + b / 16);
       b64_char ((b mod 16) * 4); pad]%N
  | a :: b :: c :: rest =>
      (b64_char (a / 4) :: b64_char ((a mod 4) * 16 + b / 16)
       :: b64_char ((b mod 16) * 4 + c / 64) :: b64_char (c mod 64)
       :: b64_encode rest)%N
  end.

(** [btoa(s)]: an [InvalidCharacterError] when a code unit exceeds 0xFF. *)
Definition btoa (s : jsstring) : result jsstring :=
  if forallb (fun c => (c <=? 255)%N) s then Ok (b64_encode s)
  else Throw InvalidCharacterError.

Definition is_ascii_whitespace (c : N) : bool :=
  ((c =? 9) || (c =? 10) || (c =? 12) || (c =? 13) || (c =? 32))%N.

(** Step 2 of forgiving-base64 decode: when the length is a multiple of
    four, one or two trailing '=' are removed. *)
Definition remove_padding (data : jsstring) : jsstring :=
  if (length data mod 4 =? 0)%nat then
    match rev data with
    | 61%N :: 61%N :: r => rev r
    | 61%N :: r => rev r
    | _ => data
    end
  else data.

Fixpoint sextets (data : jsstring) : option (list N) :=
  match data with
  | [] => Some []
  | c :: t =>
      match b64_index c, sextets t with
      | Some i, Some l => Some (i :: l)
      | _, _ => None
      end
  end.

(** Four sextets give three bytes; of a tail of two (three) sextets the
    last four (two) bits are discarded. *)
Fixpoint b64_decode (sx : list N) : list N :=
  match sx with
  | a :: b :: c :: d :: rest =>
      (a * 4 + b / 16 :: (b mod 16) * 16 + c / 4 :: (c mod 4) * 64 + d
       :: b64_decode rest)%N
  | [a; b; c] => [a * 4 + b / 16; (b mod 16) * 16 + c / 4]%N
  | [a; b] => [a * 4 + b / 16]%N
  | _ => []
  end.

(** [atob(s)] *)
Definition atob (s : jsstring) : result jsstring :=
  let data := List.filter (fun c => negb (is_ascii_whitespace c)) s in
  let data := remove_padding data in
  if (length data mod 4 =? 1)%nat then Throw InvalidCharacterError
  else match sextets data with
       | None => Throw InvalidCharacterError
       | Some sx => Ok (b64_decode sx)
       end.

End Base64.
Import Base64.

(** ** Numbers of the codec *)

Module Number.

(** A number read from a string: an integer, or [NaN]. *)
Inductive number : Type :=
| NaN
| Num (q : Q).

Definition of_Z (z : Z) : number := Num (inject_Z z).

(** [a - b] and [a / b] (for a non-zero [b]). *)
Definition sub (a b : number) : number :=
  match a, b with
  | Num x, Num y => Num (x - y)
  | _, _ => NaN
  end.

Definition div (a b : number) : number :=
  match a, b with
  | Num x, Num y => Num (x / y)
  | _, _ => NaN
  end.

(** [ToInt32]: truncate toward zero, then wrap into [-2^31, 2^31);
    [NaN] gives 0. *)
Definition wrap32 (z : Z) : Z :=
  ((z + 2147483648) mod 4294967296 - 2147483648)%Z.

Definition ToInt32 (a : number) : Z :=
  match a with
  | NaN => 0%Z
  | Num q => wrap32 (Z.quot (Qnum q) (Z.pos (Qden q)))
  end.

(** [a ^ b] *)
Definition xor (a b : number) : Z := Z.lxor (ToInt32 a) (ToInt32 b).

(** Decimal digits of a natural number, most significant first. *)
Fixpoint digits_of (fuel : nat) (n : N) (acc : jsstring) : jsstring :=
  match fuel with
  | O => acc
  | S fuel' =>
      let acc' := (48 + n mod 10)%N :: acc in
      if (n / 10 =? 0)%N then acc' else digits_of fuel' (n / 10)%N acc'
  end.

(** [`${z}`] for an integer [z]. *)
Definition toString (z : Z) : jsstring :=
  let n := Z.to_N (Z.abs z) in
  let ds := digits_of (S (N.to_nat (N.log2 n))) n [] in
  if (z <? 0)%Z then 45%N :: ds else ds.

Definition digit_value (c : N) : Z := (Z.of_N c - 48)%Z.

Definition decimal (ds : jsstring) (acc : Z) : Z :=
  fold_left (fun a c => (a * 10 + digit_value c)%Z) ds acc.

(** [parseInt(s)] on a string without leading white space or radix
    prefix (neither occurs in a capture of [\d+] or [-?\d+]): an
    optional sign, then the longest run of decimal digits; [NaN] when
    that run is empty. *)
Definition parseInt (s : jsstring) : number :=
  let '(neg, body) :=
    match s with
    | c :: t =>
        if (c =? 45)%N then (true, t)
        else if (c =? 43)%N then (false, t)
        else (false, s)
    | [] => (false, s)
    end in
  match fst (span is_digit body) with
  | [] => NaN
  | ds => of_Z (if neg then - decimal ds 0 else decimal ds 0)%Z
  end.

End Number.
Import Number.

(** ** Identifier codec *)

Inductive identifier : Type :=
| Fortune (timestamp : number)
| Data (headband run : Z).

(** [encodeId(headband, run)] *)
Definition encodeId (headband run : number) : result jsstring :=
  let obfuscatedHeadband := (xor headband (of_Z 11) + 37)%Z in
  let obfuscatedRun := (xor run (of_Z 42) * 17 + 531)%Z in
  let idString := toString obfuscatedHeadband ++ str "x" ++ toString obfuscatedRun in
  encoded ← btoa idString;
  mret (strip_trailing_eq encoded).

(** [encodeRandomFortuneTimestamp(timestamp)], for an integer timestamp *)
Definition encodeRandomFortuneTimestamp (timestamp : Z) : result jsstring :=
  let idString := str "f" ++ toString timestamp in
  encoded ← btoa idString;
  mret (strip_trailing_eq encoded).

(** [decoded.match(/^f(\d+)$/)]: the capture, or [None] for [null]. *)
Definition match_fortune (decoded : jsstring) : option jsstring :=
  match decoded with
  | c :: ds =>
      if (c =? chr "f")%N && nonempty ds && forallb is_digit ds
      then Some ds else None
  | [] => None
  end.

(** [decoded.match(/^(\d+)x(-?\d+)$/)]: the two captures. *)
Definition match_data (decoded : jsstring) : option (jsstring * jsstring) :=
  let '(g1, rest) := span is_digit decoded in
  match rest with
  | c :: g2 =>
      let ds := match g2 with
                | m :: t => if (m =? chr "-")%N then t else g2
                | [] => g2
                end in
      if nonempty g1 && (c =? chr "x")%N && nonempty ds && forallb is_digit ds
      then Some (g1, g2) else None
  | [] => None
  end.

Definition padding_length (encodedId : jsstring) : Z :=
  ((4 - Z.of_nat (length encodedId) mod 4) mod 4)%Z.

(** The body of the [try] block of [decodeId]; [Ok None] when control
    leaves the block without returning. *)
Definition decodeId_try (encodedId : jsstring) : result (option identifier) :=
  padding ← String_repeat pad (padding_length encodedId);
  decoded ← atob (encodedId ++ padding);
  match match_fortune decoded with
  | Some g =>
      let timestamp := parseInt g in
      mret (Some (Fortune timestamp))
  | None =>
      match match_data decoded with
      | Some (g1, g2) =>
          let obfuscatedHeadband := parseInt g1 in
          let obfuscatedRun := parseInt g2 in
          let headband := xor (sub obfuscatedHeadband (of_Z 37)) (of_Z 11) in
          let run := xor (div (sub obfuscatedRun (of_Z 531)) (of_Z 17)) (of_Z 42) in
          mret (Some (Data headband run))
      | None => mret None
      end
  end.

(** [decodeId(encodedId)]: the [catch] clause logs and falls through to
    [return null]. *)
Definition decodeId (encodedId : jsstring) : result (option identifier) :=
  try_catch (decodeId_try encodedId) (fun _ => Ok None).


(** ** Numbers of the pipeline

    Band powers, scores and proportions are exact rationals; [a > b],
    [a >= b] and [a === b] are the decidable comparisons of [Q]. *)

Definition Qgt_bool (a b : Q) : bool := negb (Qle_bool a b).
Definition Qge_bool (a b : Q) : bool := Qle_bool b a.

Definition of_nat (n : nat) : Q := inject_Z (Z.of_nat n).

(** [Math.round(x)]: the integer nearest to [x], halves rounded up. *)
Definition Math_round (x : Q) : Z := Qfloor (x + 1 / 2).

(** [a % b] on integers: the remainder has the sign of the dividend. *)
Definition js_rem (a b : Z) : Z := Z.rem a b.

(** [arr[i]] for an integer index: [None] stands for [undefined]. *)
Definition array_get {A} (arr : list A) (i : Z) : option A :=
  if (i <? 0)%Z then None else arr !! Z.to_nat i.

(** ** Records *)

Record brainwaves : Type :=
  { alpha : Q; beta : Q; gamma : Q; delta : Q; theta : Q }.

Record mlAnalysis : Type :=
  { focus : Q; clear : Q; meditation : Q; dream : Q }.

(** ** Band normaliser *)

(** [normalizeBrainwaves(rawValues)] *)
Definition normalizeBrainwaves (rawValues : brainwaves) : brainwaves :=
  let total := (alpha rawValues + beta rawValues + gamma rawValues
                + delta rawValues + theta rawValues)%Q in
  if Qeq_bool total 0 then rawValues
  else {| alpha := alpha rawValues / total;
          beta := beta rawValues / total;
          gamma := gamma rawValues / total;
          delta := delta rawValues / total;
          theta := theta rawValues / total |}.

(** ** The dominance loop

    [for (const [wave, value] of Object.entries(waves))
       if (value > maxValue && value > cutoff) { maxValue = value; maxWave = ... }]
    of both pages; [label] is what the page stores for a wave, and the
    state is the pair [(maxWave, maxValue)]. *)

Definition dominant_step {L} (label : string -> L) (cutoff : Q)
    (st : L * Q) (entry : string * Q) : L * Q :=
  let '(maxWave, maxValue) := st in
  let '(wave, value) := entry in
  if Qgt_bool value maxValue && Qgt_bool value cutoff
  then (label wave, value)
  else (maxWave, maxValue).

Definition dominant_loop {L} (label : string -> L) (cutoff : Q)
    (waves : list (string * Q)) (maxWave : L) : L * Q :=
  fold_left (dominant_step label cutoff) waves (maxWave, 0%Q).

(** ** The reduced page ([brainwave.js]) *)

Module ReducedPage.

(** [getDominantPattern(brainwaves, mlAnalysis)] *)
Definition getDominantPattern (bw : brainwaves) (ml : mlAnalysis) : string :=
  let mlMax := Qmax (Qmax (Qmax (focus ml) (clear ml)) (meditation ml)) (dream ml) in
  if Qeq_bool (meditation ml) mlMax && Qgt_bool (meditation ml) 0.6 then "high_meditation"
  else if Qeq_bool (focus ml) mlMax && Qgt_bool (focus ml) 0.7 then "high_focus"
  else if Qeq_bool (clear ml) mlMax && Qgt_bool (clear ml) 0.7 then "high_clear"
  else if Qeq_bool (dream ml) mlMax && Qgt_bool (dream ml) 0.7 then "high_dream"
  else
    let waves := [("alpha", alpha bw); ("beta", beta bw);
                  ("gamma", gamma bw); ("theta", theta bw)] in
    fst (dominant_loop (fun wave => "high_" +:+ wave) 0.25 waves "balanced").

End ReducedPage.

(** ** The richer page *)

Module RichPage.

Definition weighting_power : Q := 0.5.
Definition dominant_cutoff : Q := 0.225.

(** *** Waveform synthesiser *)

Record bandSpec : Type :=
  { minHz : Q; maxHz : Q; centerHz : Q; numWaves : nat }.

Definition brainwaveSpecs : gmap string bandSpec :=
  list_to_map
    [("delta", {| minHz := 0.5; maxHz := 4; centerHz := 2.25; numWaves := 7 |});
     ("theta", {| minHz := 4; maxHz := 8; centerHz := 6; numWaves := 13 |});
     ("alpha", {| minHz := 8; maxHz := 12; centerHz := 10; numWaves := 8 |});
     ("beta", {| minHz := 12; maxHz := 30; centerHz := 21; numWaves := 10 |});
     ("gamma", {| minHz := 30; maxHz := 100; centerHz := 65; numWaves := 2 |})].

Record waveComponent : Type :=
  { freq : Q; amplitude : Q; phase : Q }.

(** The path the function returns, before it is printed: the flat line
    [M0,centerY Lwidth,centerY], or [M] and the points [x,y] joined by
    [ L]. *)
Inductive wavePath : Type :=
| FlatLine (centerY : Q) (width : Z)
| Polyline (points : list (Z * Q)).

Section Waveform.

(** [Math.sin] and [Math.PI] *)
Variable sin : Q -> Q.
Variable PI : Q.

Definition waveComponents (spec : bandSpec) (amp : Q) : list waveComponent :=
  List.map
    (fun n : nat =>
       let i := of_nat n in
       let freq := (minHz spec + (maxHz spec - minHz spec)
                    * ((i + 1) / (of_nat (numWaves spec) + 2)))%Q in
       let distanceFromCenter := Qabs (freq - centerHz spec) in
       let maxDistance := Qmax (centerHz spec - minHz spec) (maxHz spec - centerHz spec) in
       let weight := (1 - (distanceFromCenter / maxDistance) * 0.3)%Q in
       let visualFreq := (freq / 20)%Q in
       let positionRatio := ((i + 1) / (of_nat (numWaves spec) + 2))%Q in
       let phaseOffset := (i + positionRatio * PI * 2)%Q in
       {| freq := visualFreq; amplitude := (weight * amp)%Q; phase := phaseOffset |})
    (seq 0 (numWaves spec)).

(** The sum of all components at the sample [x]. *)
Definition rawPoint (components : list waveComponent) (width : Z) (x : Z) : Q :=
  let t := ((inject_Z x / inject_Z width) * PI * 8)%Q in
  fold_left
    (fun y component => (y + sin (t * freq component + phase component)
                             * amplitude component)%Q)
    components 0%Q.

(** [generateFrequencyWeightedWave(brainwaveType, amplitude, width, height)] *)
Definition generateFrequencyWeightedWave
    (brainwaveType : string) (amp : Q) (width height : Z) : wavePath :=
  let centerY := (inject_Z height / 2)%Q in
  let maxAmplitude := (inject_Z height / 3)%Q in
  match brainwaveSpecs !! brainwaveType with
  | None => FlatLine centerY width
  | Some spec =>
      let components := waveComponents spec amp in
      let xs := seqZ 0 width in
      let rawPoints := List.map (rawPoint components width) xs in
      let mean := (fold_left Qplus rawPoints 0 / of_nat (length rawPoints))%Q in
      Polyline
        (List.map
           (fun x =>
              let y := (centerY - (nth (Z.to_nat x) rawPoints 0 - mean) * maxAmplitude)%Q in
              let y := Qmax 1 (Qmin (inject_Z height - 1) y) in
              (x, y))
           xs)
  end.

End Waveform.

(** *** Tail deduplicator *)

Section TailDedup.

(** The samples and their strict equality [===]. *)
Context {A : Type} (strict_eq : A -> A -> bool).

(** A property value of the argument: an array, or anything else. *)
Inductive value : Type :=
| Arr (samples : list A)
| NotArr.

(** [Infinity], or a length. *)
Inductive bound : Type :=
| Infinity
| Finite (n : nat).

Definition Math_min (m : bound) (n : nat) : bound :=
  match m with
  | Infinity => Finite n
  | Finite k => Finite (Nat.min k n)
  end.

(** The first loop: [None] when a value is not an array. *)
Fixpoint scan_lengths (entries : list (string * value)) (minLength : bound)
    : option bound :=
  match entries with
  | [] => Some minLength
  | (_, Arr samples) :: rest => scan_lengths rest (Math_min minLength (length samples))
  | (_, NotArr) :: _ => None
  end.

(** [arr[i] !== arr[i - 1]], negated; [undefined] is equal to itself only. *)
Definition repeated_at (i : nat) (v : value) : bool :=
  match v with
  | Arr samples =>
      match samples !! i, samples !! (i - 1)%nat with
      | Some a, Some b => strict_eq a b
      | None, None => true
      | _, _ => false
      end
  | NotArr => false
  end.

Definition allRepeated (entries : list (string * value)) (i : nat) : bool :=
  forallb (fun entry => repeated_at i (snd entry)) entries.

(** The second loop, [for (let i = minLength - 1; i > 0; i--)], from [i]
    down, with its [break]. *)
Fixpoint scan_tail (entries : list (string * value)) (i removeCount : nat) : nat :=
  match i with
  | O => removeCount
  | S i' =>
      if allRepeated entries i then scan_tail entries i' (S removeCount)
      else removeCount
  end.

(** [arr.slice(0, -removeCount)] for a positive [removeCount] *)
Definition slice_tail (removeCount : nat) (v : value) : value :=
  match v with
  | Arr samples => Arr (take (length samples - removeCount) samples)
  | NotArr => NotArr
  end.

(** [removeRepeatedTail(dataArrays)]: the object is the list of its
    entries in key order (a [null] argument is not modelled). *)
Definition removeRepeatedTail (dataArrays : list (string * value))
    : list (string * value) :=
  match dataArrays with
  | [] => dataArrays
  | _ :: _ =>
      match scan_lengths dataArrays Infinity with
      | None => dataArrays
      | Some Infinity => dataArrays
      | Some (Finite minLength) =>
          if (minLength <=? 1)%nat then dataArrays
          else
            let removeCount := scan_tail dataArrays (minLength - 1) 0 in
            if (0 <? removeCount)%nat
            then List.map (fun entry => (fst entry, slice_tail removeCount (snd entry)))
                          dataArrays
            else dataArrays
      end
  end.

End TailDedup.

Arguments NotArr {A}.

(** *** Message bank *)

(** The message bank, in the declared order of its categories. *)
Definition fortune_table : list (string * list string) :=
  [("alpha_active",
     ["Your relaxed focus brings sharp clarity to every task. Productive calm is your superpower.";
      "Alert yet at peace, you navigate complexity with effortless precision.";
      "Calm engagement unlocks creative problem-solving. Trust this balanced energy.";
      "Gentle attention achieves what force cannot. Your steady presence opens all doors.";
      "The art of relaxed concentration transforms ordinary moments into opportunities.";
      "Peaceful awareness meets purposeful action. You master the balance few achieve."]);
   ("alpha_clear",
     ["Your relaxed mind opens to creative possibilities. Trust the calm clarity within.";
      "In stillness, solutions emerge naturally. Let your awareness guide you.";
      "Creative energy flows when the mind is at peace. Embrace this moment.";
      "Tranquil waters reflect the sky perfectly. Your calm mind mirrors wisdom.";
      "Serenity becomes the canvas upon which inspiration paints its masterpiece.";
      "Rest is not idleness—it is the space where your greatest ideas take form."]);
   ("alpha_meditation",
     ["Deep relaxation meets inner knowing. Your peaceful mind touches profound wisdom.";
      "In meditative flow, creativity and tranquility become one.";
      "Serene awareness opens doorways to your most authentic insights.";
      "The silence between thoughts holds secrets the noise never reveals.";
      "In profound rest, your soul remembers what your mind forgot.";
      "Peace deepens into revelation. You float in the ocean of consciousness itself."]);
   ("alpha_generic",
     ["Calm creativity flows through your consciousness.";
      "Your relaxed awareness moves with natural grace.";
      "Peace and possibility dance together in your mind.";
      "Gentle knowing guides you through the day. Trust the quiet voice.";
      "Your inner stillness radiates outward, touching all you encounter.";
      "Relaxation is not weakness—it is the power of water that shapes stone."]);
   ("beta_active",
     ["Your active mind cuts through complexity with precision and focus.";
      "Problem-solving comes naturally when your awareness is sharp and engaged.";
      "Mental agility leads to breakthrough moments. Stay alert to opportunities.";
      "Lightning-quick perception illuminates what others overlook. Strike while the iron glows.";
      "Your razor-sharp attention carves pathways through impossible terrain.";
      "Dynamic thinking meets determined action. The world bends to your clarity."]);
   ("beta_clear",
     ["Focused clarity brings elegant solutions to complex challenges.";
      "Your alert yet calm mind sees patterns others miss.";
      "Balanced thinking transforms obstacles into stepping stones.";
      "Poised awareness cuts through confusion like a blade through silk.";
      "Steady observation reveals the hidden order within apparent chaos.";
      "Your composed attention finds the thread that unravels every knot."]);
   ("beta_meditation",
     ["Active consciousness meets inner stillness. Rare insight emerges from this union.";
      "Your engaged mind discovers peace within motion—a paradox that reveals truth.";
      "Alert meditation unlocks wisdom hidden in the dance of thought and silence.";
      "The eye of the hurricane: perfect calm surrounded by dynamic force.";
      "Moving meditation reveals truths that sitting never could. Walk the razor's edge.";
      "Stillness within action—the warrior's secret, the sage's paradox, your gift today."]);
   ("beta_generic",
     ["Sharp clarity energizes your thinking.";
      "Your active awareness navigates the world with purpose.";
      "Mental energy flows through channels of focused intention.";
      "Quick thinking opens doors before they close. Your timing is impeccable.";
      "Engaged perception transforms the mundane into the meaningful.";
      "Your wakeful mind dances with reality, leading when it must, following when it should."]);
   ("gamma_active",
     ["Your heightened mind makes connections others cannot see.";
      "Peak awareness transforms complexity into crystalline understanding.";
      "Hyperconnected consciousness breaks through to revolutionary insight.";
      "Synapses fire in symphonic unity. You perceive the web that connects all things.";
      "Your accelerated awareness collapses time—past, present, future merge into now.";
      "Neural lightning reveals the invisible architecture underlying visible reality."]);
   ("gamma_clear",
     ["Expanded awareness meets serene clarity. Profound patterns reveal themselves.";
      "Your heightened perception sees truth with calm precision.";
      "Peak consciousness flows through open channels of understanding.";
      "The universe whispers its secrets to minds like yours—vast yet focused.";
      "Elevated sight meets tranquil heart. You see infinity without losing yourself.";
      "Crystalline awareness refracts reality into its component truths."]);
   ("gamma_meditation",
     ["Transcendent awareness emerges from the depths. You touch universal knowing.";
      "The rarest state opens—pure consciousness witnessing itself.";
      "In heightened stillness, all boundaries dissolve into infinite awareness.";
      "You stand at the threshold where self dissolves into everything.";
      "Peak experience meets deepest surrender. The cosmos recognizes itself through you.";
      "In this moment, you are both the observer and the observed—unity realized."]);
   ("gamma_generic",
     ["Insight emerges from the synthesis of ideas. Trust your expanded awareness.";
      "The patterns of understanding reveal themselves to your awakened consciousness.";
      "Your heightened mind perceives connections across all dimensions.";
      "Quantum leaps of understanding occur when perception reaches critical velocity.";
      "Your consciousness operates at frequencies most never access. Use this gift wisely.";
      "The veil between seen and unseen grows transparent to your elevated sight."]);
   ("delta_active",
     ["Deep processing meets outward engagement. Hidden wisdom emerges into action.";
      "Your unconscious mind works while you move—transformation in motion.";
      "Profound change flows beneath active awareness. Trust the deep currents.";
      "Primordial power rises through your actions. Ancient knowing guides modern doing.";
      "The depths animate your surface. You move with unconscious grace.";
      "Root wisdom flows into branch and leaf. Your actions carry primordial truth."]);
   ("delta_clear",
     ["Your unconscious mind processes profound transformations with gentle clarity.";
      "Deep wisdom surfaces into conscious awareness. Trust what rises from below.";
      "The depths speak in whispers that your calm mind can finally hear.";
      "What stirs in the abyss seeks the light. Welcome these visitors from below.";
      "The slow work of the depths finally reaches the surface. Receive these gifts.";
      "Ancient currents become conscious thoughts. The old ways speak in new voices."]);
   ("delta_meditation",
     ["In trance-like depths, your deepest wisdom emerges from shadow into light.";
      "The gateway to archetypal wisdom and healing opens before you.";
      "Your consciousness touches the deepest waters where all things begin.";
      "You descend to the source of all streams. Drink deeply from the first spring.";
      "The cave at the bottom of your being holds treasures beyond price.";
      "In the womb of consciousness, transformation gestates in perfect darkness."]);
   ("delta_generic",
     ["Deep currents of change flow beneath conscious awareness. Allow the process.";
      "Your unconscious mind weaves transformation in the hidden depths.";
      "You journey to places beyond ordinary knowing.";
      "The roots grow strong in darkness. Trust what you cannot yet see.";
      "Invisible work proceeds in the depths. The harvest comes in its season.";
      "What sleeps beneath will wake in time. The depths are never truly still."]);
   ("theta_active",
     ["Subconscious creativity meets focused action. Innovation flows freely.";
      "Your intuitive mind engages with the world—dreams become reality.";
      "Active imagination transforms vision into tangible form.";
      "The dreaming mind sculpts waking reality. Your visions take physical form.";
      "Inspiration drives your hands today. The muse and the maker are one.";
      "Creative fire burns bright in the forge of action. You birth the impossible."]);
   ("theta_clear",
     ["Your subconscious mind weaves creativity and intuition into new forms.";
      "Meditative clarity reveals the hidden connections between all things.";
      "Insight flows from deep waters into the light of understanding.";
      "The twilight mind sees what daylight obscures. Trust your sideways knowing.";
      "Half-dreaming wisdom clarifies what sharp thinking missed. Let soft focus reveal.";
      "The boundary between imagination and perception blurs—here truth emerges."]);
   ("theta_meditation",
     ["The realm of visions and symbolic truth opens before you.";
      "Your subconscious unfolds like a lotus, revealing layer upon layer of meaning.";
      "In this liminal space, your mind creates bridges between worlds.";
      "You walk between waking and sleeping, knowing and unknowing, form and void.";
      "The dream world and waking world recognize no border today. You are the bridge.";
      "Symbolic language speaks louder than words. Your soul reads the signs."]);
   ("theta_generic",
     ["Subconscious wisdom flows through your awareness.";
      "Your intuitive mind perceives truths beyond logic.";
      "Messages arrive from the realm of dreams.";
      "The twilight realm whispers insights the daylight mind cannot grasp.";
      "Your inner vision sees further than your outer eyes. Trust the images.";
      "Creativity stirs in the half-light of consciousness. Feed it and watch it grow."]);
   ("balanced",
     ["All levels of consciousness work in harmony to create perfect understanding.";
      "Your integrated awareness brings balanced perspective to every situation.";
      "Mind, body, and spirit align to manifest your highest potential.";
      "The symphony of your being plays in perfect harmony. Each instrument serves the whole.";
      "Like a master conductor, you orchestrate all aspects of awareness into sublime unity.";
      "In this moment of equilibrium, you access the wisdom of all states at once."])].

Definition fortunes : gmap string (list string) := list_to_map fortune_table.

(** *** Activeness state *)

(** The three counters of the [forEach] loop. *)
Definition count_step (counts : nat * nat * nat) (value : Q) : nat * nat * nat :=
  let '(activeCount, clearCount, meditationCount) := counts in
  if Qge_bool value (2 / 3) then (S activeCount, clearCount, meditationCount)
  else if Qge_bool value (1 / 3) then (activeCount, S clearCount, meditationCount)
  else (activeCount, clearCount, S meditationCount).

(** [getActivenessState(activenessArray)]: [None] is a missing array on
    the way in and [null] on the way out. *)
Definition getActivenessState (activenessArray : option (list Q)) : option string :=
  match activenessArray with
  | None => None
  | Some [] => None
  | Some arr =>
      let '(activeCount, clearCount, meditationCount) :=
        fold_left count_step arr (0, 0, 0)%nat in
      let total := length arr in
      let activeRatio := (of_nat activeCount / of_nat total)%Q in
      let clearRatio := (of_nat clearCount / of_nat total)%Q in
      let meditationRatio := (of_nat meditationCount / of_nat total)%Q in
      if Qge_bool activeRatio (2 / 3) then Some "active"
      else if Qge_bool clearRatio (2 / 3) then Some "clear"
      else if Qge_bool meditationRatio (2 / 3) then Some "meditation"
      else Some "generic"
  end.

(** *** Dominant pattern *)

Section Classifier.

(** [Math.pow] *)
Variable pow : Q -> Q -> Q.

(** The frequency-weighted, re-normalised proportions, as the entries of
    [waves]. *)
Definition weightedWaves (bw : brainwaves) : list (string * Q) :=
  let alpha := (alpha bw * pow ((8 + 12) / 2) weighting_power)%Q in
  let beta := (beta bw * pow ((12 + 30) / 2) weighting_power)%Q in
  let gamma := (gamma bw * pow 30 weighting_power)%Q in
  let delta := (delta bw * pow 0.5 weighting_power)%Q in
  let theta := (theta bw * pow ((4 + 8) / 2) weighting_power)%Q in
  let total := (alpha + beta + gamma + delta + theta)%Q in
  let alpha := (alpha / total)%Q in
  let beta := (beta / total)%Q in
  let gamma := (gamma / total)%Q in
  let delta := (delta / total)%Q in
  let theta := (theta / total)%Q in
  [("alpha", alpha); ("beta", beta); ("gamma", gamma); ("theta", theta); ("delta", delta)].

(** [getDominantPattern(brainwaves, mlAnalysis, activenessArray)] *)
Definition getDominantPattern (bw : brainwaves) (ml : mlAnalysis)
    (activenessArray : option (list Q)) : string :=
  let activenessState := getActivenessState activenessArray in
  let waves := weightedWaves bw in
  let maxWave := fst (dominant_loop Some dominant_cutoff waves None) in
  match maxWave with
  | None => "balanced"
  | Some wave =>
      match activenessState with
      | None => wave +:+ "_generic"
      | Some state => wave +:+ "_" +:+ state
      end
  end.

End Classifier.

(** *** Fortune selector *)

(** [getRandomFortune(category, brainwaves, mlAnalysis)]; the table is
    looked up by its own keys (property names inherited from
    [Object.prototype] are no labels and are not modelled). *)
Definition getRandomFortune (category : string) (bw : brainwaves) (ml : mlAnalysis)
    : option string :=
  let categoryFortunes :=
    match fortunes !! category with
    | Some list => list
    | None => fortunes !!! "balanced"
    end in
  let seed :=
    Math_round (alpha bw * 1000 + beta bw * 2000 + gamma bw * 3000
                + delta bw * 4000 + theta bw * 5000
                + meditation ml * 8000)%Q in
  let index := js_rem seed (Z.of_nat (length categoryFortunes)) in
  array_get categoryFortunes index.

End RichPage.


(** * The rest of the two scripts *)

(** ** Averages *)


(** ** Gradient colours *)

Module Gradient.

Record keyPoint : Type :=
  { value : Q; lightness : Q; chroma : Q; hue : Q }.

Definition points : list keyPoint :=
  [ {| value := 0.0; lightness := 0.6; chroma := 0.18; hue := 300 |};
    {| value := 0.5; lightness := 0.65; chroma := 0.15; hue := 250 |};
    {| value := 1.0; lightness := 1.0; chroma := 0.06; hue := 250 |} ].

(** [points[i]] *)
Definition point (i : nat) : keyPoint :=
  nth i points {| value := 0; lightness := 0; chroma := 0; hue := 0 |}.

(** The colour [oklch(lightness chroma hue)], before it is printed. *)
Inductive color : Type :=
| oklch (lightness chroma hue : Q).

(** [getGradientColor(value)] *)
Definition getGradientColor (v : Q) : color :=
  let '(p1, p2, t) :=
    if Qle_bool v 0.5 then (point 0, point 1, (v / 0.5)%Q)
    else (point 1, point 2, ((v - 0.5) / 0.5)%Q) in
  let l := (lightness p1 + (lightness p2 - lightness p1) * t)%Q in
  let c := (chroma p1 + (chroma p2 - chroma p1) * t)%Q in
  let h := (hue p1 + (hue p2 - hue p1) * t)%Q in
  oklch l c h.

End Gradient.

(** ** URL parameters *)

Module Url.

(** White space and line terminators, as [parseInt] trims them. *)
Definition is_StrWhiteSpaceChar (c : N) : bool :=
  existsb (N.eqb c)
    [9; 10; 11; 12; 13; 32; 160; 5760; 8192; 8193; 8194; 8195; 8196; 8197;
     8198; 8199; 8200; 8201; 8202; 8232; 8233; 8239; 8287; 12288; 65279]%N.

Fixpoint drop_while (p : N -> bool) (s : jsstring) : jsstring :=
  match s with
  | [] => []
  | c :: t => if p c then drop_while p t else s
  end.

(** The value of [c] as a digit in [radix], if it is one. *)
Definition radix_digit (radix : Z) (c : N) : option Z :=
  let v :=
    (if (48 <=? c) && (c <=? 57) then Some (Z.of_N c - 48)%Z
     else if (97 <=? c) && (c <=? 122) then Some (Z.of_N c - 87)%Z
     else if (65 <=? c) && (c <=? 90) then Some (Z.of_N c - 55)%Z
     else None)%N in
  match v with
  | Some d => if (d <? radix)%Z then Some d else None
  | None => None
  end.

(** The values of the longest prefix of digits in [radix]. *)
Fixpoint radix_prefix (radix : Z) (s : jsstring) : list Z :=
  match s with
  | [] => []
  | c :: t =>
      match radix_digit radix c with
      | Some d => d :: radix_prefix radix t
      | None => []
      end
  end.

(** [parseInt(string)] without a radix, in full: leading white space is
    trimmed, a sign read, a prefix [0x] or [0X] selects radix 16, and the
    longest run of digits is the value; [NaN] when that run is empty. *)
Definition parseInt_full (s : jsstring) : number :=
  let s := drop_while is_StrWhiteSpaceChar s in
  let '(sign, s) :=
    match s with
    | c :: t =>
        if (c =? 45)%N then ((-1)%Z, t)
        else if (c =? 43)%N then (1%Z, t)
        else (1%Z, s)
    | [] => (1%Z, s)
    end in
  let '(radix, s) :=
    match s with
    | z :: x :: t =>
        if ((z =? 48) && ((x =? 120) || (x =? 88)))%N then (16%Z, t) else (10%Z, s)
    | _ => (10%Z, s)
    end in
  match radix_prefix radix s with
  | [] => NaN
  | ds => of_Z (sign * fold_left (fun a d => a * radix + d) ds 0)%Z
  end.

(** The parsed query string: names and values in order. *)
Definition searchParams : Type := list (jsstring * jsstring).

(** [params.get(name)]: the first value of that name, or [null]. *)
Fixpoint get (params : searchParams) (name : jsstring) : option jsstring :=
  match params with
  | [] => None
  | (k, v) :: rest => if bool_decide (k = name) then Some v else get rest name
  end.

(** A string or [null] as a condition: [null] and the empty string fail. *)
Definition truthy (s : option jsstring) : bool :=
  match s with
  | Some (_ :: _) => true
  | _ => false
  end.

(** [a || b] *)
Definition or_else (a b : option jsstring) : option jsstring :=
  if truthy a then a else b.

(** What [getUrlParams] returns: the decoded identifier, or the record
    [{mode: 'data', run, headband}] of the plain parameters. *)
Inductive urlParams : Type :=
| Decoded (id : identifier)
| Plain (run headband : option number).

(** [getUrlParams()], of the parsed [window.location.search] *)
Definition getUrlParams (params : searchParams) : result urlParams :=
  let id := get params (str "id") in
  decoded ← (if truthy id then decodeId (default [] id) else Ok None);
  match decoded with
  | Some d => mret (Decoded d)
  | None =>
      let run := or_else (get params (str "r")) (get params (str "run")) in
      let headband := or_else (get params (str "h")) (get params (str "headband")) in
      mret (Plain (parseInt_full <$> run) (parseInt_full <$> headband))
  end.

(** [params.delete(name)] *)
Fixpoint delete (params : searchParams) (name : jsstring) : searchParams :=
  match params with
  | [] => []
  | (k, v) :: rest =>
      if bool_decide (k = name) then delete rest name else (k, v) :: delete rest name
  end.

(** [params.set(name, value)]: the first pair of that name takes the
    value and the others are removed; without one, a pair is appended. *)
Fixpoint set (params : searchParams) (name value : jsstring) : searchParams :=
  match params with
  | [] => [(name, value)]
  | (k, v) :: rest =>
      if bool_decide (k = name) then (k, value) :: delete rest name
      else (k, v) :: set rest name value
  end.

(** [updateUrlParams(headband, run)], as a function from the query of
    the current location to the query of the location it installs. *)
Definition updateUrlParams (search : searchParams) (headband run : number)
    : result searchParams :=
  let search := [] in
  token ← encodeId headband run;
  mret (set search (str "id") token).

(** [updateUrlParamsForRandomFortune(timestamp)], likewise. *)
Definition updateUrlParamsForRandomFortune (search : searchParams) (timestamp : Z)
    : result searchParams :=
  let search := [] in
  token ← encodeRandomFortuneTimestamp timestamp;
  mret (set search (str "id") token).

End Url.

(** ** The richer page, continued *)

Module RichPageMore.

Import RichPage.

(** *** Fortune mode *)

(** [getAllFortunes()]: the lists of all categories, in key order. *)
Definition getAllFortunes : list string :=
  fold_left (fun allFortunes category => allFortunes ++ snd category)
            fortune_table [].

(** [getRandomFortuneFromTimestamp(timestamp)] *)
Definition getRandomFortuneFromTimestamp (timestamp : Z) : option string :=
  let allFortunes := getAllFortunes in
  array_get allFortunes (js_rem timestamp (Z.of_nat (length allFortunes))).

(** *** Straight sections *)

Section Straight.

Context {A : Type} (strict_eq : A -> A -> bool).

Definition threshold : nat := 30.

(** The inner loop from index [i] on, with [previous] for [data[i - 1]]:
    [true] when the count reaches the threshold. *)
Fixpoint straight_loop (rest : list A) (previous : A) (consecutiveCount : nat) : bool :=
  match rest with
  | [] => false
  | current :: rest' =>
      if strict_eq current previous
      then if (threshold <=? S consecutiveCount)%nat then true
           else straight_loop rest' current (S consecutiveCount)
      else straight_loop rest' current 1
  end.

(** The body of the outer loop for one property. *)
Definition straight_in (v : value (A:=A)) : bool :=
  match v with
  | NotArr => false
  | Arr data =>
      if (length data <? threshold)%nat then false
      else match data with
           | [] => false
           | first :: rest => straight_loop rest first 1
           end
  end.

(** [detectLongStraightSections(dataArrays)] *)
Definition detectLongStraightSections (dataArrays : list (string * value (A:=A))) : bool :=
  existsb (fun entry => straight_in (snd entry)) dataArrays.

End Straight.

End RichPageMore.

(** ** The reduced page, continued *)

Module ReducedPageMore.

(** The message bank of the reduced page, in declared order. *)
Definition fortune_table : list (string * list string) :=
  [("high_alpha",
   ["Your relaxed mind opens to creative possibilities. Trust the calm clarity within.";
    "In stillness, solutions emerge naturally. Let your awareness guide you.";
    "Creative energy flows when the mind is at peace. Embrace this moment."]);
   ("high_beta",
   ["Your active mind cuts through complexity with precision and focus.";
    "Problem-solving comes naturally when your awareness is sharp and engaged.";
    "Mental agility leads to breakthrough moments. Stay alert to opportunities."]);
   ("high_gamma",
   ["Your heightened mind makes connections others cannot see.";
    "Insight emerges from the synthesis of ideas. Trust your expanded awareness.";
    "The patterns of understanding reveal themselves to your awakened consciousness."]);
   ("high_delta",
   ["Your unconscious mind processes profound transformations in the depths.";
    "Deep currents of change flow beneath conscious awareness. Allow the process.";
    "In trance-like states, your deepest wisdom emerges from shadow into light."]);
   ("high_theta",
   ["Your subconscious mind weaves creativity and intuition into new forms.";
    "Meditative states reveal the hidden connections between all things.";
    "Insight flows from the deepest depths of your mind."]);
   ("balanced",
   ["All levels of consciousness work in harmony to create perfect understanding.";
    "Your integrated awareness brings balanced perspective to every situation.";
    "Mind, body, and spirit align to manifest your highest potential."]);
   ("high_focus",
   ["Concentrated attention becomes a laser that cuts through all obstacles.";
    "Your directed awareness transforms challenges into stepping stones.";
    "Single-pointed focus unlocks the door to extraordinary achievement."]);
   ("high_clear",
   ["Relaxed awareness brings crystal clarity to all that was once clouded.";
    "Creative understanding flows like light through a clear mind.";
    "Calm perception reveals the elegant simplicity within complexity."]);
   ("high_meditation",
   ["Transcendent stillness opens the gateway to infinite awareness.";
    "In the depths of silence, universal wisdom speaks without words.";
    "Your expanded consciousness touches the eternal source of all knowing."]);
   ("high_dream",
   ["Unconscious processing reveals symbolic truths through inner imagery.";
    "Trance-like states dissolve the boundaries between possible and real.";
    "Deep mind weaves visions that carry messages from beyond ordinary awareness."])].

Definition fortunes : gmap string (list string) := list_to_map fortune_table.

(** [getRandomFortune(category, brainwaves, mlAnalysis)] *)
Definition getRandomFortune (category : string) (bw : brainwaves) (ml : mlAnalysis)
    : option string :=
  let categoryFortunes :=
    match fortunes !! category with
    | Some list => list
    | None => fortunes !!! "balanced"
    end in
  let seed :=
    Math_round (alpha bw * 1000 + beta bw * 2000 + gamma bw * 3000
                + delta bw * 4000 + theta bw * 5000
                + meditation ml * 8000)%Q in
  let index := js_rem seed (Z.of_nat (length categoryFortunes)) in
  array_get categoryFortunes index.

Section Waveform.

(** [Math.sin] and [Math.PI] *)
Variable sin : Q -> Q.
Variable PI : Q.

(** [generateFrequencyWeightedWave(brainwaveType, amplitude, width, height)]
    of the reduced page: the same table and components, no removal of
    the mean. *)
Definition generateFrequencyWeightedWave
    (brainwaveType : string) (amp : Q) (width height : Z) : RichPage.wavePath :=
  let centerY := (inject_Z height / 2)%Q in
  let maxAmplitude := (inject_Z height / 3)%Q in
  match RichPage.brainwaveSpecs !! brainwaveType with
  | None => RichPage.FlatLine centerY width
  | Some spec =>
      let components := RichPage.waveComponents PI spec amp in
      RichPage.Polyline
        (List.map
           (fun x =>
              let y := RichPage.rawPoint sin PI components width x in
              let y := (centerY - y * maxAmplitude)%Q in
              let y := Qmax 1 (Qmin (inject_Z height - 1) y) in
              (x, y))
           (seqZ 0 width))
  end.

End Waveform.

End ReducedPageMore.

(** ** Notions used to state and prove the codec facts *)

(** The sextets [btoa] writes, and the number of '=' it appends. *)
Fixpoint enc_sextets (bs : list N) : list N :=
  match bs with
  | [] => []
  | [a] => [a / 4; (a mod 4) * 16]%N
  | [a; b] => [a / 4; (a mod 4) * 16 + b / 16; (b mod 16) * 4]%N
  | a :: b :: c :: rest =>
      (a / 4 :: (a mod 4) * 16 + b / 16 :: (b mod 16) * 4 + c / 64 :: c mod 64
       :: enc_sextets rest)%N
  end.

Fixpoint enc_pad (bs : list N) : nat :=
  match bs with
  | [] => 0
  | [_] => 2
  | [_; _] => 1
  | _ :: _ :: _ :: rest => enc_pad rest
  end.

Definition bytes (bs : list N) : Prop := Forall (fun b => (b <= 255)%N) bs.

Definition head_differs (c : N) (s : jsstring) : Prop :=
  match s with [] => True | x :: _ => x <> c end.

Definition all_digits (ds : jsstring) : Prop := forallb is_digit ds = true.


(** The padding rule in the words of the specification: [length mod 4]
    padding characters. *)
Definition spec_padding_length (encodedId : jsstring) : Z :=
  (Z.of_nat (length encodedId) mod 4)%Z.

(** [/^f(\d+)$/]: the subject and its capture. *)
Inductive matches_fortune : jsstring -> jsstring -> Prop :=
| matches_fortune_intro (ds : jsstring) :
    all_digits ds -> nonempty ds = true ->
    matches_fortune (chr "f" :: ds) ds.

(** [/^(\d+)x(-?\d+)$/]: the subject and its two captures. *)
Inductive matches_data : jsstring -> jsstring -> jsstring -> Prop :=
| matches_data_intro (g1 ds : jsstring) (minus : bool) :
    all_digits g1 -> nonempty g1 = true ->
    all_digits ds -> nonempty ds = true ->
    matches_data (g1 ++ chr "x" :: (if minus then chr "-" :: ds else ds))
                 g1 (if minus then chr "-" :: ds else ds).

(** ** Notions used to state the pipeline facts *)

Definition band_sum (b : brainwaves) : Q :=
  (alpha b + beta b + gamma b + delta b + theta b)%Q.

Definition nonneg_bands (b : brainwaves) : Prop :=
  (0 <= alpha b /\ 0 <= beta b /\ 0 <= gamma b /\ 0 <= delta b /\ 0 <= theta b)%Q.


Definition count (bucket : Q -> bool) (arr : list Q) : nat :=
  length (List.filter bucket arr).


(** A well-formed argument of the tail deduplicator: every value is an
    array of [n] samples. *)
Definition equal_length_arrays {A} (n : nat)
    (dataArrays : list (string * RichPage.value (A:=A))) : Prop :=
  Forall (fun entry =>
            exists samples, snd entry = RichPage.Arr samples /\ length samples = n)
         dataArrays.

(** [(wave, value)] is the first entry of [waves] with the largest value. *)
Definition first_largest (waves : list (string * Q)) (wave : string) (value : Q) : Prop :=
  exists before after,
    waves = before ++ (wave, value) :: after /\
    Forall (fun entry => (snd entry < value)%Q) before /\
    Forall (fun entry => (snd entry <= value)%Q) after.

(** The largest of the four ML scores, [Math.max(focus, clear, meditation, dream)]. *)
Definition mlMax (ml : mlAnalysis) : Q :=
  Qmax (Qmax (Qmax (focus ml) (clear ml)) (meditation ml)) (dream ml).

(** The bands the reduced page compares. *)
Definition reduced_waves (bw : brainwaves) : list (string * Q) :=
  [("alpha", alpha bw); ("beta", beta bw); ("gamma", gamma bw); ("theta", theta bw)].






(** The x coordinates of [points] increase strictly. *)
Definition increasing_x (points : list (Z * Q)) : Prop :=
  forall i j p q, points !! i = Some p -> points !! j = Some q ->
                  (i < j)%nat -> (fst p < fst q)%Z.

(** ** Notions used to state the further facts *)

(** A signed 32-bit integer. *)
Definition int32 (z : Z) : Prop := (-2147483648 <= z < 2147483648)%Z.

(** [A-Z], [a-z] or [0-9]. *)
Definition is_alnum (c : N) : bool :=
  ((65 <=? c) && (c <=? 90) || (97 <=? c) && (c <=? 122) || (48 <=? c) && (c <=? 57))%N.

(** A byte whose base64 text never needs '+' or '/', wherever it falls
    in a group of three: ASCII, and not one of [> ? ~ DEL]. *)
Definition plain_byte (b : N) : Prop := (b < 128 /\ b mod 64 < 62)%N.

(** Every field of a band record lies in [[0, 1]]. *)
Definition proportions (b : brainwaves) : Prop :=
  (0 <= alpha b <= 1 /\ 0 <= beta b <= 1 /\ 0 <= gamma b <= 1 /\
   0 <= delta b <= 1 /\ 0 <= theta b <= 1)%Q.

(** From index [s] on, [data] holds thirty samples in a row each equal
    to the one before it. *)
Definition straight_from {A} (strict_eq : A -> A -> bool) (data : list A) (s : nat) : Prop :=
  (s + 30 <= length data)%nat /\
  forall j a b, (s < j < s + 30)%nat ->
                data !! j = Some a -> data !! (j - 1)%nat = Some b ->
                strict_eq a b = true.

(** The comparisons of the inner loop: each sample against the one before. *)
Fixpoint flags_from {A} (strict_eq : A -> A -> bool) (rest : list A) (previous : A)
    : list bool :=
  match rest with
  | [] => []
  | current :: rest' => strict_eq current previous :: flags_from strict_eq rest' current
  end.

(** The inner loop on the comparisons alone. *)
Fixpoint scan_flags (flags : list bool) (consecutiveCount : nat) : bool :=
  match flags with
  | [] => false
  | flag :: flags' =>
      if flag
      then if (RichPageMore.threshold <=? S consecutiveCount)%nat then true
           else scan_flags flags' (S consecutiveCount)
      else scan_flags flags' 1
  end.

(** [k] comparisons in a row hold from position [s] on. *)
Definition trues_from (flags : list bool) (s k : nat) : Prop :=
  forall j, (s <= j < s + k)%nat -> flags !! j = Some true.

(** Rational stand-ins for [Math.sin] and [Math.PI] in the examples. *)
Definition sin_example (x : Q) : Q := (x - x * x * x / 6)%Q.
Definition PI_example : Q := 3.141592653589793.

(** A band specification whose centre lies within a proper range. *)
Definition proper_spec (spec : RichPage.bandSpec) : Prop :=
  (RichPage.minHz spec < RichPage.maxHz spec /\
   RichPage.minHz spec <= RichPage.centerHz spec <= RichPage.maxHz spec)%Q.

(** * Proofs *)

Example encodeId_0_1 : encodeId (of_Z 0) (of_Z 1) = Ok (str "NDh4MTI2Mg").
Proof. vm_compute. reflexivity. Qed.

Example decodeId_0_1 : decodeId (str "NDh4MTI2Mg") = Ok (Some (Data 0 1)).
Proof. vm_compute. reflexivity. Qed.

(** ** Base64 round trip *)

Section Base64_facts.

Local Ltac divmod := cbv beta; zify; Z.to_euclidean_division_equations; lia.

(** Induction on lists in steps of three. *)
Lemma list_ind3 {A} (P : list A -> Prop) :
  P [] -> (forall a, P [a]) -> (forall a b, P [a; b]) ->
  (forall a b c l, P l -> P (a :: b :: c :: l)) ->
  forall l, P l.
Proof.
  intros H0 H1 H2 H3.
  assert (H : forall l, P l /\ (forall a, P (a :: l)) /\ (forall a b, P (a :: b :: l))).
  { induction l as [|x l (IH0 & IH1 & IH2)]; [by auto|].
    split; [apply IH1|]. split; [intros; apply IH2|].
    intros a b. by apply H3. }
  intros l. apply H.
Qed.

Lemma b64_index_char (i : N) : (i < 64)%N -> b64_index (b64_char i) = Some i.
Proof.
  intros Hi. unfold b64_char, b64_index.
  repeat match goal with
         | |- context [N.ltb ?a ?b] => destruct (N.ltb_spec a b)
         | |- context [N.leb ?a ?b] => destruct (N.leb_spec a b)
         | |- context [N.eqb ?a ?b] => destruct (N.eqb_spec a b)
         | _ => progress simpl
         end; try (f_equal; lia); lia.
Qed.

Lemma b64_char_not_pad (i : N) : b64_char i <> pad.
Proof.
  unfold b64_char, pad.
  repeat match goal with
         | |- context [N.ltb ?a ?b] => destruct (N.ltb_spec a b)
         | |- context [N.eqb ?a ?b] => destruct (N.eqb_spec a b)
         end; lia.
Qed.

Lemma b64_char_not_whitespace (i : N) : is_ascii_whitespace (b64_char i) = false.
Proof.
  assert (H : (43 <= b64_char i)%N).
  { unfold b64_char.
    repeat match goal with
           | |- context [N.ltb ?a ?b] => destruct (N.ltb_spec a b)
           | |- context [N.eqb ?a ?b] => destruct (N.eqb_spec a b)
           end; lia. }
  unfold is_ascii_whitespace.
  repeat match goal with
         | |- context [N.eqb ?a ?b] => destruct (N.eqb_spec a b); [lia|]
         end.
  reflexivity.
Qed.

Lemma b64_encode_split (bs : list N) :
  b64_encode bs = List.map b64_char (enc_sextets bs) ++ replicate (enc_pad bs) pad.
Proof.
  induction bs as [| | |a b c l IH] using list_ind3; try reflexivity.
  cbn [b64_encode enc_sextets enc_pad List.map app]. by rewrite IH.
Qed.

Lemma enc_sextets_lt (bs : list N) :
  bytes bs -> Forall (fun i => (i < 64)%N) (enc_sextets bs).
Proof.
  unfold bytes.
  induction bs as [| | |a b c l IH] using list_ind3; intros H; cbn [enc_sextets].
  - apply Forall_nil_2.
  - inversion_clear H as [|? ? Ha _].
    repeat (apply Forall_cons_2; [divmod|]). apply Forall_nil_2.
  - inversion_clear H as [|? ? Ha H']. inversion_clear H' as [|? ? Hb _].
    repeat (apply Forall_cons_2; [divmod|]). apply Forall_nil_2.
  - inversion_clear H as [|? ? Ha H']. inversion_clear H' as [|? ? Hb H''].
    inversion_clear H'' as [|? ? Hc Hl].
    do 4 (apply Forall_cons_2; [divmod|]). by apply IH.
Qed.

Lemma b64_decode_enc_sextets (bs : list N) :
  bytes bs -> b64_decode (enc_sextets bs) = bs.
Proof.
  unfold bytes.
  induction bs as [| | |a b c l IH] using list_ind3; intros H.
  - reflexivity.
  - inversion_clear H. cbn [enc_sextets b64_decode]. f_equal. divmod.
  - inversion_clear H as [|? ? Ha H']. inversion_clear H' as [|? ? Hb _].
    cbn [enc_sextets b64_decode]. repeat f_equal; divmod.
  - inversion_clear H as [|? ? Ha H']. inversion_clear H' as [|? ? Hb H''].
    inversion_clear H'' as [|? ? Hc Hl].
    cbn [enc_sextets b64_decode]. rewrite (IH Hl).
    repeat f_equal; divmod.
Qed.

Lemma enc_lengths (bs : list N) :
  exists k : nat,
    (length (enc_sextets bs) + enc_pad bs = 4 * k)%nat /\
    (enc_pad bs = 0 \/ enc_pad bs = 1 \/ enc_pad bs = 2)%nat.
Proof.
  induction bs as [| | |a b c l (k & Hk & Hp)] using list_ind3; cbn [enc_sextets enc_pad length].
  - exists 0%nat. lia.
  - exists 1%nat. lia.
  - exists 1%nat. lia.
  - exists (S k). lia.
Qed.

Lemma drop_leading_replicate (c : N) (n : nat) (s : jsstring) :
  drop_leading c (replicate n c ++ s) = drop_leading c s.
Proof.
  induction n as [|n IH]; [reflexivity|].
  cbn [replicate app drop_leading]. by rewrite N.eqb_refl.
Qed.

Lemma drop_leading_head_differs (c : N) (s : jsstring) :
  head_differs c s -> drop_leading c s = s.
Proof.
  destruct s as [|x t]; [reflexivity|]. cbn. intros H.
  by destruct (N.eqb_spec x c).
Qed.

Lemma rev_replicate {A} (n : nat) (x : A) : rev (replicate n x) = replicate n x.
Proof.
  induction n as [|n IH]; [reflexivity|].
  cbn [replicate rev]. rewrite IH. clear IH.
  induction n as [|n IH]; [reflexivity|]. cbn [replicate app]. by rewrite IH.
Qed.

Lemma head_differs_rev_chars (sx : list N) :
  head_differs pad (rev (List.map b64_char sx)).
Proof.
  rewrite <- List.map_rev. destruct (rev sx); cbn; [done|]. apply b64_char_not_pad.
Qed.

Lemma strip_trailing_eq_chars (sx : list N) (p : nat) :
  strip_trailing_eq (List.map b64_char sx ++ replicate p pad) = List.map b64_char sx.
Proof.
  unfold strip_trailing_eq. rewrite rev_app_distr, rev_replicate.
  fold pad. rewrite drop_leading_replicate.
  rewrite drop_leading_head_differs by apply head_differs_rev_chars.
  apply rev_involutive.
Qed.

Lemma remove_padding_chars (sx : list N) (p : nat) :
  (length sx + p) mod 4 = 0%nat -> (p = 0 \/ p = 1 \/ p = 2)%nat ->
  remove_padding (List.map b64_char sx ++ replicate p pad) = List.map b64_char sx.
Proof.
  intros Hlen Hp. unfold remove_padding.
  rewrite length_app, length_map, length_replicate, Hlen. cbn [Nat.eqb].
  rewrite rev_app_distr, rev_replicate.
  pose proof (head_differs_rev_chars sx) as Hd.
  destruct Hp as [-> | [-> | ->]]; cbn [replicate app].
  - rewrite app_nil_r.
    destruct (rev (List.map b64_char sx)) as [|x t] eqn:E; [done|].
    cbn in Hd. unfold pad in Hd.
    destruct x as [|x]; [done|].
    do 6 (destruct x as [x|x|]; try done).
  - unfold pad.
    destruct (rev (List.map b64_char sx)) as [|x t] eqn:E.
    + apply (f_equal (@rev N)) in E. rewrite rev_involutive in E. by rewrite E.
    + cbn in Hd. unfold pad in Hd.
      assert (Hx : rev (x :: t) = List.map b64_char sx).
      { rewrite <- E. apply rev_involutive. }
      destruct x as [|x]; [done|].
      do 6 (destruct x as [x|x|]; try done).
  - unfold pad. apply rev_involutive.
Qed.

Lemma filter_whitespace_chars (sx : list N) (p : nat) :
  List.filter (fun c => negb (is_ascii_whitespace c))
    (List.map b64_char sx ++ replicate p pad)
  = List.map b64_char sx ++ replicate p pad.
Proof.
  apply forallb_filter_id. rewrite forallb_app. apply andb_true_iff. split.
  - induction sx as [|i sx IH]; [reflexivity|].
    cbn [List.map forallb]. by rewrite b64_char_not_whitespace, IH.
  - induction p as [|p IH]; [reflexivity|]. cbn [replicate forallb]. by rewrite IH.
Qed.

Lemma sextets_chars (sx : list N) :
  Forall (fun i => (i < 64)%N) sx -> sextets (List.map b64_char sx) = Some sx.
Proof.
  induction 1 as [|i sx Hi _ IH]; [reflexivity|].
  cbn [List.map sextets]. by rewrite (b64_index_char i Hi), IH.
Qed.

(** [atob] inverts the encoding of any byte string. *)
Lemma atob_b64_encode (bs : list N) : bytes bs -> atob (b64_encode bs) = Ok bs.
Proof.
  intros Hb. destruct (enc_lengths bs) as (k & Hk & Hp).
  unfold atob. rewrite b64_encode_split, filter_whitespace_chars.
  rewrite remove_padding_chars; [| |done].
  2:{ rewrite Hk. by rewrite Nat.mul_comm, Nat.Div0.mod_mul. }
  rewrite length_map.
  destruct (Nat.eqb_spec (length (enc_sextets bs) mod 4) 1) as [E|_].
  { exfalso. revert E. zify. Z.to_euclidean_division_equations. lia. }
  rewrite sextets_chars by by apply enc_sextets_lt.
  by rewrite b64_decode_enc_sextets.
Qed.

(** The padding [decodeId] restores is the padding [encodeId] stripped. *)
Lemma repad_stripped (bs : list N) :
  let token := strip_trailing_eq (b64_encode bs) in
  token ++ replicate (Z.to_nat (padding_length token)) pad = b64_encode bs.
Proof.
  cbv zeta. destruct (enc_lengths bs) as (k & Hk & Hp).
  rewrite b64_encode_split, strip_trailing_eq_chars. f_equal. f_equal.
  unfold padding_length. rewrite length_map.
  zify. Z.to_euclidean_division_equations. lia.
Qed.

End Base64_facts.

(** ** Decimal numerals *)

Section Number_facts.

Lemma is_digit_digit (n : N) : is_digit (48 + n mod 10) = true.
Proof.
  unfold is_digit. apply andb_true_iff. split; apply N.leb_le.
  - lia.
  - zify. Z.to_euclidean_division_equations. lia.
Qed.

Lemma digit_value_digit (n : N) : digit_value (48 + n mod 10) = Z.of_N (n mod 10).
Proof. unfold digit_value. lia. Qed.

Lemma digits_of_all_digits (fuel : nat) (n : N) (acc : jsstring) :
  all_digits acc -> all_digits (digits_of fuel n acc).
Proof.
  unfold all_digits. revert n acc.
  induction fuel as [|fuel IH]; intros n acc Hacc; cbn [digits_of]; [done|].
  assert (H : forallb is_digit ((48 + n mod 10)%N :: acc) = true).
  { cbn [forallb]. by rewrite is_digit_digit, Hacc. }
  destruct (n / 10 =? 0)%N; [done|]. by apply IH.
Qed.

Lemma digits_of_nonempty (fuel : nat) (n : N) (acc : jsstring) :
  nonempty acc = true \/ fuel <> 0%nat -> nonempty (digits_of fuel n acc) = true.
Proof.
  revert n acc. induction fuel as [|fuel IH]; intros n acc H; cbn [digits_of].
  - by destruct H.
  - destruct (n / 10 =? 0)%N; [done|]. apply IH. by left.
Qed.

(** Reading the digits written for [n] in front of [acc] is reading
    [acc] from [n]. *)
Lemma decimal_digits_of (fuel : nat) (n : N) (acc : jsstring) :
  (n < 2 ^ N.of_nat fuel)%N ->
  decimal (digits_of fuel n acc) 0 = decimal acc (Z.of_N n).
Proof.
  revert n acc. induction fuel as [|fuel IH]; intros n acc Hn.
  - cbn in Hn. assert (n = 0%N) as -> by lia. reflexivity.
  - rewrite Nat2N.inj_succ, N.pow_succ_r' in Hn. cbn [digits_of].
    destruct (N.eqb_spec (n / 10) 0) as [E|E].
    + cbn [decimal fold_left]. rewrite digit_value_digit. f_equal.
      zify. Z.to_euclidean_division_equations. lia.
    + rewrite IH.
      * cbn [decimal fold_left]. rewrite digit_value_digit. f_equal.
        zify. Z.to_euclidean_division_equations. lia.
      * zify. Z.to_euclidean_division_equations. lia.
Qed.

Lemma toString_nonneg (z : Z) :
  (0 <= z)%Z ->
  all_digits (toString z) /\ nonempty (toString z) = true /\
  decimal (toString z) 0 = z.
Proof.
  intros Hz. unfold toString.
  destruct (Z.ltb_spec z 0) as [?|_]; [lia|].
  split; [by apply digits_of_all_digits|].
  split; [apply digits_of_nonempty; by right|].
  rewrite decimal_digits_of.
  - cbn [decimal fold_left]. lia.
  - rewrite Nat2N.inj_succ, N2Nat.id.
    destruct (N.eq_dec (Z.to_N (Z.abs z)) 0%N) as [->|Hne]; [reflexivity|].
    apply N.log2_spec. lia.
Qed.

Lemma span_all_digits (ds : jsstring) :
  all_digits ds -> span is_digit ds = (ds, []).
Proof.
  unfold all_digits. induction ds as [|d ds IH]; [reflexivity|].
  cbn [forallb span]. intros [Hd Hds]%andb_true_iff.
  by rewrite Hd, (IH Hds).
Qed.

Lemma span_digits_stop (ds rest : jsstring) (c : N) :
  all_digits ds -> is_digit c = false ->
  span is_digit (ds ++ c :: rest) = (ds, c :: rest).
Proof.
  unfold all_digits. intros Hds Hc. induction ds as [|d ds IH].
  - cbn. by rewrite Hc.
  - cbn [forallb] in Hds. apply andb_true_iff in Hds as [Hd Hds].
    cbn [app span]. by rewrite Hd, (IH Hds).
Qed.

Lemma digit_not_sign (d : N) :
  is_digit d = true -> (d =? 45)%N = false /\ (d =? 43)%N = false /\ (d =? 102)%N = false.
Proof.
  unfold is_digit. intros [H1 H2]%andb_true_iff.
  apply N.leb_le in H1. apply N.leb_le in H2.
  repeat split; apply N.eqb_neq; lia.
Qed.

Lemma parseInt_digits (ds : jsstring) :
  all_digits ds -> nonempty ds = true -> parseInt ds = of_Z (decimal ds 0).
Proof.
  intros Hds Hne. destruct ds as [|d ds]; [done|].
  unfold parseInt.
  assert (Hd : is_digit d = true).
  { unfold all_digits in Hds. cbn [forallb] in Hds. by apply andb_true_iff in Hds as []. }
  destruct (digit_not_sign d Hd) as (-> & -> & _).
  by rewrite (span_all_digits _ Hds).
Qed.

Lemma parseInt_toString (z : Z) : (0 <= z)%Z -> parseInt (toString z) = of_Z z.
Proof.
  intros Hz. destruct (toString_nonneg z Hz) as (Hd & Hne & Hv).
  by rewrite parseInt_digits, Hv.
Qed.

(** Bit operations on the numbers of the codec. *)

Lemma wrap32_small (z : Z) :
  (-2147483648 <= z < 2147483648)%Z -> wrap32 z = z.
Proof. intros H. unfold wrap32. rewrite Z.mod_small; lia. Qed.

Lemma ToInt32_of_Z (z : Z) : ToInt32 (of_Z z) = wrap32 z.
Proof. cbn. by rewrite Z.quot_1_r. Qed.

Lemma ToInt32_sub (a b : Z) : ToInt32 (sub (of_Z a) (of_Z b)) = wrap32 (a - b).
Proof. cbn. rewrite Z.quot_1_r. f_equal. lia. Qed.

Lemma ToInt32_sub_div (a b : Z) (c : positive) :
  ToInt32 (div (sub (of_Z a) (of_Z b)) (of_Z (Z.pos c)))
  = wrap32 (Z.quot (a - b) (Z.pos c)).
Proof. cbn. do 2 f_equal. lia. Qed.

Lemma lxor_bound (a b n : Z) :
  (0 <= n)%Z -> (0 <= a < 2 ^ n)%Z -> (0 <= b < 2 ^ n)%Z ->
  (0 <= Z.lxor a b < 2 ^ n)%Z.
Proof.
  intros Hn Ha Hb.
  assert (E : Z.lxor a b = ((Z.lxor a b) mod 2 ^ n)%Z).
  { apply Z.bits_inj'. intros i Hi.
    destruct (Z.lt_ge_cases i n) as [Hlt|Hge].
    - by rewrite Z.mod_pow2_bits_low.
    - rewrite Z.mod_pow2_bits_high by lia. rewrite Z.lxor_spec.
      rewrite <- (Z.mod_small a (2 ^ n)), <- (Z.mod_small b (2 ^ n)) by lia.
      by rewrite !Z.mod_pow2_bits_high by lia. }
  rewrite E. apply Z.mod_pos_bound. lia.
Qed.

Lemma lxor_cancel (a b : Z) : Z.lxor (Z.lxor a b) b = a.
Proof. by rewrite Z.lxor_assoc, Z.lxor_nilpotent, Z.lxor_0_r. Qed.

End Number_facts.

(** ** The identifier codec *)

Section Codec_facts.

Lemma bytes_all_digits (ds : jsstring) : all_digits ds -> bytes ds.
Proof.
  unfold all_digits, bytes. induction ds as [|d ds IH]; [constructor|].
  cbn [forallb]. intros [Hd Hds]%andb_true_iff. constructor; [|by apply IH].
  unfold is_digit in Hd. apply andb_true_iff in Hd as [_ Hd%N.leb_le]. lia.
Qed.

Lemma btoa_bytes (s : jsstring) : bytes s -> btoa s = Ok (b64_encode s).
Proof.
  intros H. unfold btoa.
  replace (forallb (fun c => (c <=? 255)%N) s) with true; [done|].
  symmetry. apply forallb_forall. intros c Hc.
  apply N.leb_le. by apply (proj1 (List.Forall_forall _ _) H).
Qed.

Lemma match_fortune_digit (d : N) (s : jsstring) :
  is_digit d = true -> match_fortune (d :: s) = None.
Proof.
  intros Hd. unfold match_fortune.
  destruct (digit_not_sign d Hd) as (_ & _ & E).
  change (chr "f") with 102%N. by rewrite E.
Qed.

Lemma match_data_numerals (a b : jsstring) :
  all_digits a -> nonempty a = true -> all_digits b -> nonempty b = true ->
  match_data (a ++ chr "x" :: b) = Some (a, b).
Proof.
  intros Ha Hna Hb Hnb. unfold match_data.
  rewrite span_digits_stop by done. rewrite Hna, N.eqb_refl.
  destruct b as [|d b]; [done|].
  assert (Hd : is_digit d = true).
  { unfold all_digits in Hb. cbn [forallb] in Hb. by apply andb_true_iff in Hb as []. }
  destruct (digit_not_sign d Hd) as (E & _ & _).
  change (chr "-") with 45%N. rewrite E. by rewrite Hb.
Qed.

(** Decoding the token written for two non-negative obfuscated
    integers reads them back and undoes the arithmetic. *)
Lemma decodeId_token (a b : Z) :
  (0 <= a)%Z -> (0 <= b)%Z ->
  let idString := toString a ++ str "x" ++ toString b in
  exists token,
    (encoded ← btoa idString; mret (strip_trailing_eq encoded)) = Ok token /\
    decodeId token =
      Ok (Some (Data (xor (sub (of_Z a) (of_Z 37)) (of_Z 11))
                     (xor (div (sub (of_Z b) (of_Z 531)) (of_Z 17)) (of_Z 42)))).
Proof.
  intros Ha Hb idString.
  destruct (toString_nonneg a Ha) as (Hda & Hna & Hva).
  destruct (toString_nonneg b Hb) as (Hdb & Hnb & Hvb).
  assert (Hbytes : bytes idString).
  { unfold idString, bytes. apply Forall_app. split; [by apply bytes_all_digits|].
    apply Forall_app. split; [|by apply bytes_all_digits].
    change (str "x") with [120%N].
    apply Forall_cons_2; [cbv beta; lia | apply Forall_nil_2]. }
  exists (strip_trailing_eq (b64_encode idString)). split.
  { by rewrite btoa_bytes. }
  unfold decodeId, decodeId_try, String_repeat.
  destruct (Z.ltb_spec (padding_length (strip_trailing_eq (b64_encode idString))) 0)
    as [Hneg|_].
  { exfalso. revert Hneg. unfold padding_length.
    zify. Z.to_euclidean_division_equations. lia. }
  cbn [mbind result_mbind result_bind].
  rewrite repad_stripped, atob_b64_encode by done.
  cbn [mbind result_mbind result_bind]. unfold idString.
  destruct (toString a) as [|d ds] eqn:Ea; [done|].
  assert (Hd : is_digit d = true).
  { unfold all_digits in Hda. cbn [forallb] in Hda. by apply andb_true_iff in Hda as []. }
  cbn [app]. rewrite (match_fortune_digit _ _ Hd).
  change (d :: ds ++ str "x" ++ toString b)
    with ((d :: ds) ++ chr "x" :: toString b).
  rewrite match_data_numerals by done.
  rewrite <- Ea, !parseInt_toString by done. reflexivity.
Qed.

Lemma decode_headband (h : Z) :
  (0 <= h <= 10)%Z ->
  xor (sub (of_Z (xor (of_Z h) (of_Z 11) + 37)) (of_Z 37)) (of_Z 11) = h.
Proof.
  intros Hh. unfold xor. rewrite ToInt32_sub, !ToInt32_of_Z.
  rewrite (wrap32_small h), (wrap32_small 11) by lia.
  pose proof (lxor_bound h 11 4 ltac:(lia) ltac:(lia) ltac:(lia)) as Hx.
  rewrite wrap32_small by lia.
  replace (Z.lxor h 11 + 37 - 37)%Z with (Z.lxor h 11) by lia.
  apply lxor_cancel.
Qed.

Lemma decode_run (r : Z) :
  (1 <= r <= 10000)%Z ->
  xor (div (sub (of_Z (xor (of_Z r) (of_Z 42) * 17 + 531)) (of_Z 531)) (of_Z 17))
      (of_Z 42) = r.
Proof.
  intros Hr. unfold xor. rewrite ToInt32_sub_div, !ToInt32_of_Z.
  rewrite (wrap32_small r), (wrap32_small 42) by lia.
  pose proof (lxor_bound r 42 14 ltac:(lia) ltac:(lia) ltac:(lia)) as Hx.
  replace (Z.lxor r 42 * 17 + 531 - 531)%Z with (Z.lxor r 42 * 17)%Z by lia.
  rewrite Z.quot_mul by done.
  rewrite wrap32_small by lia.
  apply lxor_cancel.
Qed.

(** C1. For every integer headband in [0,10] and run in [1,10000],
    [encodeId] produces a token and [decodeId] maps that token back to
    the data identifier with the same headband and run. *)
Theorem decodeId_encodeId (headband run : Z) :
  (0 <= headband <= 10)%Z -> (1 <= run <= 10000)%Z ->
  exists token,
    encodeId (of_Z headband) (of_Z run) = Ok token /\
    decodeId token = Ok (Some (Data headband run)).
Proof.
  intros Hh Hr. unfold encodeId.
  pose proof (lxor_bound headband 11 4 ltac:(lia) ltac:(lia) ltac:(lia)) as Hxh.
  pose proof (lxor_bound run 42 14 ltac:(lia) ltac:(lia) ltac:(lia)) as Hxr.
  assert (Eh : xor (of_Z headband) (of_Z 11) = Z.lxor headband 11).
  { unfold xor. by rewrite !ToInt32_of_Z, !wrap32_small by lia. }
  assert (Er : xor (of_Z run) (of_Z 42) = Z.lxor run 42).
  { unfold xor. by rewrite !ToInt32_of_Z, !wrap32_small by lia. }
  destruct (decodeId_token (xor (of_Z headband) (of_Z 11) + 37)
              (xor (of_Z run) (of_Z 42) * 17 + 531))
    as (token & Henc & Hdec); [lia | lia |].
  exists token. split; [exact Henc|].
  by rewrite Hdec, decode_headband, decode_run.
Qed.

Lemma decodeId_encodeId_witness :
  (0 <= 7 <= 10)%Z /\ (1 <= 4242 <= 10000)%Z /\
  exists token,
    encodeId (of_Z 7) (of_Z 4242) = Ok token /\
    decodeId token = Ok (Some (Data 7 4242)).
Proof.
  split; [lia|]. split; [lia|]. apply (decodeId_encodeId 7 4242); lia.
Defined.

Lemma match_fortune_spec (decoded g : jsstring) :
  match_fortune decoded = Some g <-> matches_fortune decoded g.
Proof.
  split.
  - unfold match_fortune. destruct decoded as [|c ds]; [done|].
    destruct (N.eqb_spec c (chr "f")) as [->|_]; [|done]. cbn [andb].
    destruct (nonempty ds) eqn:Hne; [|done]. cbn [andb].
    destruct (forallb is_digit ds) eqn:Hds; [|done].
    intros [= <-]. by constructor.
  - intros [ds Hds Hne]. unfold match_fortune.
    by rewrite N.eqb_refl, Hne, Hds.
Qed.

Lemma span_spec (p : N -> bool) (s a b : jsstring) :
  span p s = (a, b) ->
  s = a ++ b /\ forallb p a = true /\ match b with [] => True | c :: _ => p c = false end.
Proof.
  revert a b. induction s as [|x s IH]; intros a b; cbn [span].
  - by intros [= <- <-].
  - destruct (p x) eqn:Hx.
    + destruct (span p s) as [a' b'] eqn:E. intros [= <- <-].
      destruct (IH a' b' eq_refl) as (-> & Ha & Hb).
      cbn [app forallb]. by rewrite Hx, Ha.
    + intros [= <- <-]. done.
Qed.

Lemma match_data_spec (decoded g1 g2 : jsstring) :
  match_data decoded = Some (g1, g2) <-> matches_data decoded g1 g2.
Proof.
  split.
  - unfold match_data. destruct (span is_digit decoded) as [a rest] eqn:E.
    apply span_spec in E as (-> & Ha & _).
    destruct rest as [|c r]; [done|].
    destruct (nonempty a) eqn:Hna; [|done]. cbn [andb].
    destruct (N.eqb_spec c (chr "x")) as [->|_]; [|done]. cbn [andb].
    destruct r as [|m t].
    + done.
    + destruct (N.eqb_spec m (chr "-")) as [->|Hm].
      * destruct (nonempty t) eqn:Hnt; [|done]. cbn [andb].
        destruct (forallb is_digit t) eqn:Ht; [|done].
        intros [= <- <-]. by apply (matches_data_intro a t true).
      * destruct (forallb is_digit (m :: t)) eqn:Ht; [|by rewrite andb_false_r].
        intros [= <- <-]. by apply (matches_data_intro a (m :: t) false).
  - intros [a ds minus Ha Hna Hds Hnds]. unfold match_data.
    rewrite span_digits_stop by done. rewrite Hna, N.eqb_refl. cbn [andb].
    destruct minus.
    + by rewrite N.eqb_refl, Hnds, Hds.
    + destruct ds as [|d ds]; [done|].
      assert (Hd : is_digit d = true).
      { unfold all_digits in Hds. cbn [forallb] in Hds. by apply andb_true_iff in Hds as []. }
      destruct (digit_not_sign d Hd) as (E & _ & _).
      change (chr "-") with 45%N. rewrite E. by rewrite Hds.
Qed.

(** C2, as the code has it. For every token, [decodeId] appends exactly
    [(4 - length mod 4) mod 4] '=' characters before base64-decoding; a
    decoding error gives [null]; a decoded string matching [^f(\d+)$]
    gives fortune mode, one matching [^(\d+)x(-?\d+)$] gives data mode
    with the arithmetic reversed, and any other gives [null]. *)
Theorem decodeId_padding_and_patterns (encodedId : jsstring) :
  let count := ((4 - Z.of_nat (length encodedId) mod 4) mod 4)%Z in
  match atob (encodedId ++ replicate (Z.to_nat count) pad) with
  | Throw _ => decodeId encodedId = Ok None
  | Ok decoded =>
      (forall g, matches_fortune decoded g ->
         decodeId encodedId = Ok (Some (Fortune (parseInt g)))) /\
      (forall g1 g2, matches_data decoded g1 g2 ->
         decodeId encodedId =
           Ok (Some (Data (xor (sub (parseInt g1) (of_Z 37)) (of_Z 11))
                          (xor (div (sub (parseInt g2) (of_Z 531)) (of_Z 17))
                               (of_Z 42))))) /\
      ((forall g, ~ matches_fortune decoded g) ->
       (forall g1 g2, ~ matches_data decoded g1 g2) ->
       decodeId encodedId = Ok None)
  end.
Proof.
  cbv zeta. unfold decodeId, decodeId_try, String_repeat.
  fold (padding_length encodedId).
  destruct (Z.ltb_spec (padding_length encodedId) 0) as [Hneg|_].
  { exfalso. revert Hneg. unfold padding_length.
    zify. Z.to_euclidean_division_equations. lia. }
  cbn [mbind result_mbind result_bind].
  destruct (atob _) as [decoded|e]; [|done].
  cbn [mbind result_mbind result_bind]. repeat split.
  - intros g Hg%match_fortune_spec. by rewrite Hg.
  - intros g1 g2 Hg.
    assert (Hf : match_fortune decoded = None).
    { destruct Hg as [a ds minus Ha Hna _ _].
      destruct a as [|d a]; [done|]. cbn [app]. apply match_fortune_digit.
      unfold all_digits in Ha. cbn [forallb] in Ha.
      by apply andb_true_iff in Ha as []. }
    apply match_data_spec in Hg. by rewrite Hf, Hg.
  - intros Hnf Hnd. destruct (match_fortune decoded) as [g|] eqn:Hf.
    { apply match_fortune_spec in Hf. by destruct (Hnf g). }
    destruct (match_data decoded) as [[g1 g2]|] eqn:Hd; [|done].
    apply match_data_spec in Hd. by destruct (Hnd g1 g2).
Qed.

Lemma decodeId_padding_and_patterns_witness :
  decodeId (str "ZjE3MDAwMDAwMDA") = Ok (Some (Fortune (of_Z 1700000000))) /\
  decodeId (str "NDh4MTY4ODU")
  = Ok (Some (Data (xor (sub (of_Z 48) (of_Z 37)) (of_Z 11))
                   (xor (div (sub (of_Z 16885) (of_Z 531)) (of_Z 17)) (of_Z 42)))).
Proof.
  split.
  - pose proof (decodeId_padding_and_patterns (str "ZjE3MDAwMDAwMDA")) as H.
    cbv zeta in H.
    change (atob _) with (Ok (A:=jsstring) (str "f1700000000")) in H.
    destruct H as (H & _ & _).
    apply (H (str "1700000000")). by constructor.
  - pose proof (decodeId_padding_and_patterns (str "NDh4MTY4ODU")) as H.
    cbv zeta in H.
    change (atob _) with (Ok (A:=jsstring) (str "48x16885")) in H.
    destruct H as (_ & H & _).
    apply (H (str "48") (str "16885")).
    by apply (matches_data_intro (str "48") (str "16885") false).
Defined.

(** C2, as stated, fails. The token of [encodeId(0, 1000)] has length 11:
    the code appends one '=' (and decodes), where [length mod 4] is
    three, and three '=' make [atob] fail. *)
Lemma decodeId_padding_counterexample :
  let token := str "NDh4MTY4ODU" in
  encodeId (of_Z 0) (of_Z 1000) = Ok token /\
  padding_length token = 1%Z /\
  spec_padding_length token = 3%Z /\
  atob (token ++ replicate (Z.to_nat (padding_length token)) pad)
    = Ok (str "48x16885") /\
  decodeId token = Ok (Some (Data 0 1000)) /\
  atob (token ++ replicate (Z.to_nat (spec_padding_length token)) pad)
    = Throw InvalidCharacterError.
Proof. vm_compute. repeat split. Qed.

(** C10. [decodeId] returns on every string, with a fortune identifier,
    a data identifier or [null]; an error thrown while the padding is
    restored or the base64 text decoded is caught and gives [null]. *)
Theorem decodeId_total (encodedId : jsstring) :
  exists r : option identifier,
    decodeId encodedId = Ok r /\
    (r = None \/ (exists timestamp, r = Some (Fortune timestamp)) \/
     (exists headband run, r = Some (Data headband run))) /\
    (forall e,
        (padding ← String_repeat pad (padding_length encodedId);
         atob (encodedId ++ padding)) = Throw e ->
        r = None).
Proof.
  unfold decodeId, decodeId_try.
  destruct (String_repeat pad (padding_length encodedId)) as [padding|e1];
    cbn [mbind result_mbind result_bind try_catch].
  2:{ exists None. repeat split; auto. }
  destruct (atob (encodedId ++ padding)) as [decoded|e2];
    cbn [mbind result_mbind result_bind try_catch].
  2:{ exists None. repeat split; auto. }
  destruct (match_fortune decoded) as [g|].
  { eexists. split; [reflexivity|]. split; [right; left; eauto|]. intros e [=]. }
  destruct (match_data decoded) as [[g1 g2]|].
  { eexists. split; [reflexivity|]. split; [right; right; eauto|]. intros e [=]. }
  exists None. repeat split; auto.
Qed.

End Codec_facts.

(** ** Band normaliser *)

Section Normalizer_facts.



End Normalizer_facts.

(** ** Activeness state *)

Section Activeness_facts.

Import RichPage.









End Activeness_facts.

(** ** Tail deduplicator *)

Section TailDedup_facts.

Import RichPage.

Context {A : Type} (strict_eq : A -> A -> bool).

Implicit Types (d : list (string * value (A:=A))) (n i c : nat).

Lemma scan_lengths_same n d :
  equal_length_arrays n d -> scan_lengths d (Finite n) = Some (Finite n).
Proof.
  induction 1 as [|[k v] d (samples & Hv & Hlen) _ IH]; [reflexivity|].
  cbn in Hv. subst v. cbn [scan_lengths Math_min].
  by rewrite Hlen, Nat.min_id.
Qed.

Lemma scan_lengths_start n d :
  d <> [] -> equal_length_arrays n d -> scan_lengths d Infinity = Some (Finite n).
Proof.
  intros Hne Hd. destruct d as [|[k v] d]; [done|].
  inversion_clear Hd as [|? ? (samples & Hv & Hlen) Hrest].
  cbn in Hv. subst v. cbn [scan_lengths Math_min]. rewrite Hlen.
  by apply scan_lengths_same.
Qed.

Lemma slice_tail_equal_length n c d :
  equal_length_arrays n d ->
  equal_length_arrays (n - c)
    (List.map (fun entry => (fst entry, slice_tail c (snd entry))) d).
Proof.
  unfold equal_length_arrays. intros Hd. apply Forall_map.
  eapply Forall_impl; [exact Hd|]. intros [k v] (samples & Hv & Hlen).
  cbn in *. subst v. eexists. split; [reflexivity|].
  rewrite length_take, Hlen. lia.
Qed.

(** Below the cut, the shortened arrays repeat where the original ones do. *)
Lemma allRepeated_slice_tail n c i d :
  equal_length_arrays n d -> (i < n - c)%nat ->
  allRepeated strict_eq
    (List.map (fun entry => (fst entry, slice_tail c (snd entry))) d) i
  = allRepeated strict_eq d i.
Proof.
  intros Hd Hi. unfold allRepeated.
  induction Hd as [|[k v] d (samples & Hv & Hlen) _ IH]; [reflexivity|].
  cbn in Hv. subst v. cbn [List.map forallb fst snd]. rewrite IH. f_equal.
  cbn [slice_tail repeated_at]. rewrite Hlen.
  by rewrite !lookup_take_lt by lia.
Qed.

Lemma scan_tail_acc d i c :
  scan_tail strict_eq d i c = (c + scan_tail strict_eq d i 0)%nat.
Proof.
  revert c. induction i as [|i IH]; intros c; cbn [scan_tail]; [lia|].
  destruct (allRepeated strict_eq d (S i)); [|lia].
  rewrite (IH (S c)), (IH 1%nat). lia.
Qed.

(** The scan stops at the first position, from [i] down, where not
    every array repeats. *)
Lemma scan_tail_stop d i :
  let c := scan_tail strict_eq d i 0 in
  (c <= i)%nat /\ ((c < i)%nat -> allRepeated strict_eq d (i - c) = false).
Proof.
  induction i as [|i [IHle IHstop]]; cbn [scan_tail]; [by split; [lia | intros; lia]|].
  destruct (allRepeated strict_eq d (S i)) eqn:E.
  - rewrite scan_tail_acc. split; [lia|]. intros Hlt.
    replace (S i - (1 + scan_tail strict_eq d i 0))%nat
      with (i - scan_tail strict_eq d i 0)%nat by lia.
    apply IHstop. lia.
  - split; [lia|]. intros _. by rewrite Nat.sub_0_r.
Qed.

(** C5. On a map of equal-length arrays [removeRepeatedTail] is
    idempotent. *)
Theorem removeRepeatedTail_idempotent n d :
  equal_length_arrays n d ->
  removeRepeatedTail strict_eq (removeRepeatedTail strict_eq d)
  = removeRepeatedTail strict_eq d.
Proof.
  intros Hd. destruct d as [|e d0] eqn:Ed; [reflexivity|]. rewrite <- Ed in *.
  assert (Hne : d <> []) by by rewrite Ed.
  assert (Hf : forall d' n', d' <> [] -> equal_length_arrays n' d' ->
            removeRepeatedTail strict_eq d' =
            if (n' <=? 1)%nat then d'
            else let c := scan_tail strict_eq d' (n' - 1) 0 in
                 if (0 <? c)%nat
                 then List.map (fun entry => (fst entry, slice_tail c (snd entry))) d'
                 else d').
  { intros d' n' Hne' Hd'. unfold removeRepeatedTail.
    rewrite (scan_lengths_start n' d' Hne' Hd'). by destruct d'. }
  rewrite (Hf d n Hne Hd).
  destruct (Nat.leb_spec n 1) as [Hn|Hn].
  { rewrite (Hf d n Hne Hd). by destruct (Nat.leb_spec n 1); [|lia]. }
  cbv zeta. set (c := scan_tail strict_eq d (n - 1) 0).
  destruct (Nat.ltb_spec 0 c) as [Hc|Hc].
  2:{ rewrite (Hf d n Hne Hd). destruct (Nat.leb_spec n 1); [lia|].
      cbv zeta. fold c. by destruct (Nat.ltb_spec 0 c); [lia|]. }
  set (d' := List.map (fun entry => (fst entry, slice_tail c (snd entry))) d).
  assert (Hne' : d' <> []) by (unfold d'; rewrite Ed; done).
  rewrite (Hf d' (n - c)%nat Hne' (slice_tail_equal_length n c d Hd)).
  destruct (Nat.leb_spec (n - c) 1) as [|Hn']; [reflexivity|]. cbv zeta.
  destruct (scan_tail_stop d (n - 1)) as [_ Hstop]. fold c in Hstop.
  replace (n - c - 1)%nat with (S (n - c - 2)) by lia. cbn [scan_tail].
  replace (S (n - c - 2)) with (n - 1 - c)%nat by lia.
  unfold d'. rewrite (allRepeated_slice_tail n c) by (done || lia).
  rewrite Hstop by lia. reflexivity.
Qed.

End TailDedup_facts.

(** The two examples of the specification. *)
Example removeRepeatedTail_trims :
  RichPage.removeRepeatedTail Z.eqb
    [("a", RichPage.Arr [1; 2; 3; 3; 3]%Z); ("b", RichPage.Arr [5; 6; 7; 7; 7]%Z)]
  = [("a", RichPage.Arr [1; 2; 3]%Z); ("b", RichPage.Arr [5; 6; 7]%Z)].
Proof. reflexivity. Qed.

Example removeRepeatedTail_unmatched :
  RichPage.removeRepeatedTail Z.eqb
    [("a", RichPage.Arr [1; 2; 3; 3]%Z); ("b", RichPage.Arr [5; 6; 7; 8]%Z)]
  = [("a", RichPage.Arr [1; 2; 3; 3]%Z); ("b", RichPage.Arr [5; 6; 7; 8]%Z)].
Proof. reflexivity. Qed.

Lemma removeRepeatedTail_idempotent_witness :
  let d := [("a", RichPage.Arr [1; 2; 3; 3; 3]%Z);
            ("b", RichPage.Arr [5; 6; 7; 7; 7]%Z)] in
  equal_length_arrays 5 d /\
  RichPage.removeRepeatedTail Z.eqb d
    = [("a", RichPage.Arr [1; 2; 3]%Z); ("b", RichPage.Arr [5; 6; 7]%Z)] /\
  RichPage.removeRepeatedTail Z.eqb (RichPage.removeRepeatedTail Z.eqb d)
    = RichPage.removeRepeatedTail Z.eqb d.
Proof.
  assert (H : equal_length_arrays 5
                [("a", RichPage.Arr [1; 2; 3; 3; 3]%Z);
                 ("b", RichPage.Arr [5; 6; 7; 7; 7]%Z)]).
  { repeat constructor; eexists; split; reflexivity. }
  split; [exact H|]. split; [reflexivity|].
  exact (@removeRepeatedTail_idempotent Z Z.eqb 5 _ H).
Defined.


(** ** The dominance loop *)

Section Dominance_facts.

Lemma Qgt_bool_iff (a b : Q) : Qgt_bool a b = true <-> (b < a)%Q.
Proof.
  unfold Qgt_bool. rewrite negb_true_iff. split.
  - intros H. apply Qnot_le_lt. intros Hle. apply Qle_bool_iff in Hle. congruence.
  - intros H. destruct (Qle_bool a b) eqn:E; [|done].
    apply Qle_bool_iff in E. lra.
Qed.

Lemma Qgt_bool_false (a b : Q) : Qgt_bool a b = false <-> (a <= b)%Q.
Proof.
  unfold Qgt_bool. rewrite negb_false_iff. apply Qle_bool_iff.
Qed.

Context {L : Type} (label : string -> L) (cutoff : Q).

(** No entry above the cutoff: the state is left as it was. *)
Lemma dominant_loop_below (waves : list (string * Q)) (st : L * Q) :
  Forall (fun entry => (snd entry <= cutoff)%Q) waves ->
  fold_left (dominant_step label cutoff) waves st = st.
Proof.
  intros H. revert st. induction H as [|[wave value] waves Hv _ IH]; intros [mw mv];
    [reflexivity|].
  cbn [fold_left dominant_step]. cbn in Hv.
  apply Qgt_bool_false in Hv. rewrite Hv, andb_false_r. apply IH.
Qed.

(** Entries that do not exceed the stored value leave the state as it was. *)
Lemma dominant_loop_after (waves : list (string * Q)) (mw : L) (mv : Q) :
  Forall (fun entry => (snd entry <= mv)%Q) waves ->
  fold_left (dominant_step label cutoff) waves (mw, mv) = (mw, mv).
Proof.
  induction 1 as [|[wave value] waves Hv _ IH]; [reflexivity|].
  cbn [fold_left dominant_step]. cbn in Hv.
  apply Qgt_bool_false in Hv. rewrite Hv. apply IH.
Qed.

(** Over entries below [value], the stored value stays below [value]. *)
Lemma dominant_loop_before (waves : list (string * Q)) (value : Q) (st : L * Q) :
  Forall (fun entry => (snd entry < value)%Q) waves ->
  (snd st < value)%Q ->
  (snd (fold_left (dominant_step label cutoff) waves st) < value)%Q.
Proof.
  intros H. revert st. induction H as [|[wave v] waves Hv _ IH]; intros [mw mv] Hst;
    [done|].
  cbn [fold_left]. apply IH. cbn [dominant_step].
  by destruct (Qgt_bool v mv && Qgt_bool v cutoff).
Qed.

(** The loop stores the first entry with the largest value when that
    value exceeds the cutoff. *)
Lemma dominant_loop_first_largest (waves : list (string * Q)) (init : L)
    (wave : string) (value : Q) :
  (0 <= cutoff)%Q -> first_largest waves wave value -> (cutoff < value)%Q ->
  dominant_loop label cutoff waves init = (label wave, value).
Proof.
  intros Hc (before & after & -> & Hb & Ha) Hv.
  unfold dominant_loop. rewrite fold_left_app. cbn [fold_left].
  pose proof (dominant_loop_before before value (init, 0%Q) Hb) as Hlt.
  destruct (fold_left (dominant_step label cutoff) before (init, 0%Q)) as [mw mv].
  cbn [snd] in Hlt. cbn [dominant_step].
  assert (Hmv : (mv < value)%Q) by (apply Hlt; lra).
  apply Qgt_bool_iff in Hmv. apply Qgt_bool_iff in Hv. rewrite Hmv, Hv. cbn [andb].
  by apply dominant_loop_after.
Qed.

End Dominance_facts.

(** ** The classifier of the reduced page *)

Section Reduced_facts.

Lemma mlMax_spec (ml : mlAnalysis) :
  (focus ml <= mlMax ml /\ clear ml <= mlMax ml /\
   meditation ml <= mlMax ml /\ dream ml <= mlMax ml)%Q /\
  (focus ml == mlMax ml \/ clear ml == mlMax ml \/
   meditation ml == mlMax ml \/ dream ml == mlMax ml)%Q.
Proof.
  unfold mlMax.
  pose proof (Q.le_max_l (focus ml) (clear ml)).
  pose proof (Q.le_max_r (focus ml) (clear ml)).
  pose proof (Q.le_max_l (Qmax (focus ml) (clear ml)) (meditation ml)).
  pose proof (Q.le_max_r (Qmax (focus ml) (clear ml)) (meditation ml)).
  pose proof (Q.le_max_l (Qmax (Qmax (focus ml) (clear ml)) (meditation ml)) (dream ml)).
  pose proof (Q.le_max_r (Qmax (Qmax (focus ml) (clear ml)) (meditation ml)) (dream ml)).
  split; [repeat split; lra|].
  destruct (Q.max_spec (focus ml) (clear ml)) as [[_ E1]|[_ E1]];
    destruct (Q.max_spec (Qmax (focus ml) (clear ml)) (meditation ml)) as [[_ E2]|[_ E2]];
    destruct (Q.max_spec (Qmax (Qmax (focus ml) (clear ml)) (meditation ml)) (dream ml))
      as [[_ E3]|[_ E3]];
    rewrite E3; try rewrite E2; try rewrite E1; auto using Qeq_refl.
Qed.

Local Ltac decide_tests :=
  repeat match goal with
         | |- context [Qeq_bool ?a ?b] =>
             let E := fresh "E" in
             destruct (Qeq_bool a b) eqn:E;
             [apply Qeq_bool_iff in E | apply Qeq_bool_neq in E]
         | |- context [Qgt_bool ?a ?b] =>
             let E := fresh "E" in
             destruct (Qgt_bool a b) eqn:E;
             [apply Qgt_bool_iff in E | apply Qgt_bool_false in E]
         end.

(** C3, as the code has it. A [high_] ML label is returned exactly when
    a largest of the four ML scores exceeds its own cutoff: meditation
    above 0.6 first, then focus, clear, dream above 0.7. In every other
    case, also when a score that is not the largest exceeds its cutoff,
    the result is the plain comparison of alpha, beta, gamma and theta
    with cutoff 0.25: the first largest band above 0.25, or [balanced]. *)
Theorem reduced_getDominantPattern_priority (bw : brainwaves) (ml : mlAnalysis) :
  let top := mlMax ml in
  let pattern := ReducedPage.getDominantPattern bw ml in
  let no_ml_label := (top <= 0.6 \/ (top <= 0.7 /\ ~ meditation ml == top))%Q in
  ((meditation ml == top)%Q -> (0.6 < top)%Q -> pattern = "high_meditation") /\
  (~ (meditation ml == top)%Q -> (0.7 < top)%Q ->
   ((focus ml == top)%Q -> pattern = "high_focus") /\
   (~ (focus ml == top)%Q -> (clear ml == top)%Q -> pattern = "high_clear") /\
   (~ (focus ml == top)%Q -> ~ (clear ml == top)%Q -> pattern = "high_dream")) /\
  (no_ml_label ->
   (forall wave value,
       first_largest (reduced_waves bw) wave value -> (0.25 < value)%Q ->
       pattern = "high_" +:+ wave) /\
   (Forall (fun entry => (snd entry <= 0.25)%Q) (reduced_waves bw) ->
    pattern = "balanced")).
Proof.
  cbv zeta. destruct (mlMax_spec ml) as ((Hf & Hc & Hm & Hd) & Hor).
  unfold ReducedPage.getDominantPattern. fold (mlMax ml). fold (reduced_waves bw).
  generalize dependent (mlMax ml). intros top Hf Hc Hm Hd Hor.
  split; [|split].
  - intros Em Ht. decide_tests; try reflexivity; exfalso; lra.
  - intros Em Ht. repeat split.
    + intros Ef. decide_tests; try reflexivity; exfalso; try lra; tauto.
    + intros Ef Ec. decide_tests; try reflexivity; exfalso; try lra; tauto.
    + intros Ef Ec.
      assert (Ed : (dream ml == top)%Q) by tauto.
      decide_tests; try reflexivity; exfalso; try lra; tauto.
  - intros Hno.
    assert (Hfall :
      (if Qeq_bool (meditation ml) top && Qgt_bool (meditation ml) 0.6
       then "high_meditation"
       else if Qeq_bool (focus ml) top && Qgt_bool (focus ml) 0.7 then "high_focus"
       else if Qeq_bool (clear ml) top && Qgt_bool (clear ml) 0.7 then "high_clear"
       else if Qeq_bool (dream ml) top && Qgt_bool (dream ml) 0.7 then "high_dream"
       else fst (dominant_loop (fun wave => "high_" +:+ wave) 0.25
                   (reduced_waves bw) "balanced"))
      = fst (dominant_loop (fun wave => "high_" +:+ wave) 0.25
               (reduced_waves bw) "balanced")).
    { decide_tests; cbn [andb]; try reflexivity; exfalso;
        destruct Hno as [Hno|[Hno Hnm]]; try lra; tauto. }
    rewrite Hfall. split.
    + intros wave value Hfl Hv.
      by rewrite (dominant_loop_first_largest _ 0.25 _ "balanced" wave value).
    + intros Hall. unfold dominant_loop. by rewrite dominant_loop_below.
Qed.

Lemma reduced_getDominantPattern_priority_witness :
  ReducedPage.getDominantPattern
    {| alpha := 0.2; beta := 0.3; gamma := 0.1; delta := 0.1; theta := 0.3 |}
    {| focus := 0.5; clear := 0.1; meditation := 0.65; dream := 0 |}
  = "high_meditation" /\
  ReducedPage.getDominantPattern
    {| alpha := 0.2; beta := 0.3; gamma := 0.1; delta := 0.1; theta := 0.3 |}
    {| focus := 0.68; clear := 0.1; meditation := 0.65; dream := 0 |}
  = "high_" +:+ "beta".
Proof.
  split.
  - apply (reduced_getDominantPattern_priority
             {| alpha := 0.2; beta := 0.3; gamma := 0.1; delta := 0.1; theta := 0.3 |}
             {| focus := 0.5; clear := 0.1; meditation := 0.65; dream := 0 |});
      reflexivity.
  - apply (reduced_getDominantPattern_priority
             {| alpha := 0.2; beta := 0.3; gamma := 0.1; delta := 0.1; theta := 0.3 |}
             {| focus := 0.68; clear := 0.1; meditation := 0.65; dream := 0 |})
      with (value := 0.3%Q).
    + right. split; [discriminate | discriminate].
    + exists [("alpha", 0.2%Q)], [("gamma", 0.1%Q); ("theta", 0.3%Q)].
      split; [reflexivity|]. split.
      * repeat constructor.
      * repeat constructor; discriminate.
    + reflexivity.
Defined.

(** C3, as stated, fails: with meditation at 0.65, above its cutoff, and
    focus at 0.68, the largest score but under 0.7, no ML label is
    returned; the band comparison decides (here: no band above 0.25). *)
Lemma reduced_ml_priority_counterexample :
  let ml := {| focus := 0.68; clear := 0; meditation := 0.65; dream := 0 |} in
  let bw := {| alpha := 0.2; beta := 0.2; gamma := 0.2; delta := 0.2; theta := 0.2 |} in
  (0.6 < meditation ml)%Q /\
  ReducedPage.getDominantPattern bw ml = "balanced".
Proof. split; reflexivity. Qed.

End Reduced_facts.

(** ** The classifier of the richer page *)

Section Rich_facts.

Import RichPage.

(** [Math.pow], whatever it computes. *)
Variable pow : Q -> Q -> Q.


End Rich_facts.


(** ** Fortune selector *)

Section Fortune_facts.

Import RichPage.








End Fortune_facts.

(** ** Waveform synthesiser *)

Section Waveform_facts.

Import RichPage.

Lemma seqZ_increasing (m n : Z) (i j : nat) (x y : Z) :
  seqZ m n !! i = Some x -> seqZ m n !! j = Some y -> (i < j)%nat -> (x < y)%Z.
Proof.
  intros [-> _]%lookup_seqZ [-> _]%lookup_seqZ Hij. lia.
Qed.

(** [Math.sin] and [Math.PI], whatever they compute. *)
Variable sin : Q -> Q.
Variable PI : Q.

Lemma clamp_bounds (low high y : Q) :
  (low <= high)%Q ->
  (low <= Qmax low (Qmin high y) <= high)%Q.
Proof.
  intros H. split; [apply Q.le_max_l|].
  apply Q.max_lub; [done | apply Q.le_min_l].
Qed.

Lemma map_fst_graph {B} (f : Z -> B) (xs : list Z) :
  List.map fst (List.map (fun x => (x, f x)) xs) = xs.
Proof. induction xs as [|x xs IH]; [reflexivity|]. cbn. by rewrite IH. Qed.

(** For a known band, the path has one point per sample [x] of
    [0 .. width-1], in order, each clamped into [1, height-1]. *)
Lemma wave_points (brainwaveType : string) (spec : bandSpec) (amp : Q) (width height : Z) :
  brainwaveSpecs !! brainwaveType = Some spec -> (2 <= height)%Z ->
  exists points,
    generateFrequencyWeightedWave sin PI brainwaveType amp width height = Polyline points /\
    List.map fst points = seqZ 0 width /\
    Forall (fun p => (1 <= snd p <= inject_Z height - 1)%Q) points.
Proof.
  intros Hspec Hh. unfold generateFrequencyWeightedWave. rewrite Hspec.
  eexists. split; [reflexivity|]. split; [apply map_fst_graph|].
  apply Forall_map. apply Forall_forall. intros x _. cbn [snd].
  apply clamp_bounds.
  assert (H : (inject_Z 2 <= inject_Z height)%Q) by by rewrite <- Zle_Qle.
  change (inject_Z 2) with 2%Q in H. lra.
Qed.

(** C9. For band [gamma], amplitude 1, width 80 and height 60 the
    synthesiser yields exactly 80 points, with x running through
    0, 1, ..., 79 in strictly increasing order and every y in [1, 59]. *)
Theorem gamma_wave_points :
  exists points,
    generateFrequencyWeightedWave sin PI "gamma" 1 80 60 = Polyline points /\
    length points = 80%nat /\
    List.map fst points = seqZ 0 80 /\
    increasing_x points /\
    Forall (fun p => (1 <= snd p <= 59)%Q) points.
Proof.
  destruct (wave_points "gamma"
              {| minHz := 30; maxHz := 100; centerHz := 65; numWaves := 2 |}
              1 80 60 eq_refl ltac:(lia)) as (points & Hgen & Hx & Hy).
  exists points. split; [exact Hgen|].
  assert (Hlen : length points = 80%nat).
  { rewrite <- (length_map fst), Hx. by rewrite length_seqZ. }
  split; [exact Hlen|]. split; [exact Hx|]. split.
  - intros i j p q Hp Hq Hij.
    apply (seqZ_increasing 0 80 i j); [| |done]; rewrite <- Hx.
    + change (List.map fst points !! i) with ((fst <$> points) !! i).
      by rewrite list_lookup_fmap, Hp.
    + change (List.map fst points !! j) with ((fst <$> points) !! j).
      by rewrite list_lookup_fmap, Hq.
  - eapply Forall_impl; [exact Hy|]. cbn. intros p [H1 H2]. split; [done|].
    assert (E : (inject_Z 60 - 1 == 59)%Q) by reflexivity. by rewrite <- E.
Qed.

End Waveform_facts.

(** * Further facts *)

(** ** The identifier codec, continued *)

Section Codec_more.

Lemma toString_negative (z : Z) :
  (z < 0)%Z ->
  exists ds, toString z = chr "-" :: ds /\ all_digits ds /\ nonempty ds = true /\
             decimal ds 0 = (- z)%Z.
Proof.
  intros Hz. destruct (toString_nonneg (- z)) as (Hd & Hne & Hv); [lia|].
  exists (toString (- z)). repeat split; try done.
  unfold toString. rewrite Z.abs_opp.
  destruct (Z.ltb_spec z 0) as [_|]; [|lia].
  by destruct (Z.ltb_spec (- z) 0) as [|_]; [lia|].
Qed.

Lemma parseInt_toString_any (z : Z) : parseInt (toString z) = of_Z z.
Proof.
  destruct (Z.lt_ge_cases z 0) as [Hz|Hz]; [|by apply parseInt_toString; lia].
  destruct (toString_negative z Hz) as (ds & -> & Hd & Hne & Hv).
  unfold parseInt. change (chr "-" =? 45)%N with true. cbn iota.
  rewrite (span_all_digits _ Hd). cbn [fst].
  destruct ds as [|d ds]; [done|]. rewrite Hv. f_equal. f_equal. lia.
Qed.

Lemma toString_matches_data (a b : Z) :
  (0 <= a)%Z ->
  matches_data (toString a ++ str "x" ++ toString b) (toString a) (toString b).
Proof.
  intros Ha. destruct (toString_nonneg a Ha) as (Hda & Hna & _).
  change (toString a ++ str "x" ++ toString b)
    with (toString a ++ chr "x" :: toString b).
  destruct (Z.lt_ge_cases b 0) as [Hb|Hb].
  - destruct (toString_negative b Hb) as (ds & -> & Hd & Hne & _).
    by apply (matches_data_intro (toString a) ds true).
  - destruct (toString_nonneg b) as (Hdb & Hnb & _); [lia|].
    by apply (matches_data_intro (toString a) (toString b) false).
Qed.

(** The characters of a printed integer. *)
Lemma toString_chars (z : Z) :
  Forall (fun c => is_digit c = true \/ c = chr "-") (toString z).
Proof.
  assert (H : forall ds, all_digits ds ->
                Forall (fun c => is_digit c = true \/ c = chr "-") ds).
  { unfold all_digits. induction ds as [|d ds IH]; [constructor|].
    cbn [forallb]. intros [Hd Hds]%andb_true_iff. constructor; [by left | by apply IH]. }
  destruct (Z.lt_ge_cases z 0) as [Hz|Hz].
  - destruct (toString_negative z Hz) as (ds & -> & Hd & _).
    constructor; [by right | by apply H].
  - destruct (toString_nonneg z) as (Hd & _); [lia|]. by apply H.
Qed.

Lemma plain_byte_digit_or_sign (c : N) :
  is_digit c = true \/ c = chr "-" -> plain_byte c.
Proof.
  unfold plain_byte, is_digit. intros [[H1 H2]%andb_true_iff | ->].
  - apply N.leb_le in H1. apply N.leb_le in H2.
    split; [lia|]. zify. Z.to_euclidean_division_equations. lia.
  - by vm_compute.
Qed.

Lemma plain_bytes_bytes (bs : list N) : Forall plain_byte bs -> bytes bs.
Proof.
  unfold bytes. intros H. eapply Forall_impl; [exact H|].
  unfold plain_byte. cbn. intros b [Hb _]. lia.
Qed.

(** Plain bytes are written with the first 62 characters of the alphabet. *)
Lemma enc_sextets_plain (bs : list N) :
  Forall plain_byte bs -> Forall (fun i => (i < 62)%N) (enc_sextets bs).
Proof.
  unfold plain_byte.
  induction bs as [| | |a b c l IH] using list_ind3; intros H; cbn [enc_sextets].
  - apply Forall_nil_2.
  - inversion_clear H as [|? ? [Ha Ha'] _].
    repeat (apply Forall_cons_2;
            [cbv beta; zify; Z.to_euclidean_division_equations; lia|]).
    apply Forall_nil_2.
  - inversion_clear H as [|? ? [Ha Ha'] H']. inversion_clear H' as [|? ? [Hb Hb'] _].
    repeat (apply Forall_cons_2;
            [cbv beta; zify; Z.to_euclidean_division_equations; lia|]).
    apply Forall_nil_2.
  - inversion_clear H as [|? ? [Ha Ha'] H']. inversion_clear H' as [|? ? [Hb Hb'] H''].
    inversion_clear H'' as [|? ? [Hc Hc'] Hl].
    do 4 (apply Forall_cons_2;
          [cbv beta; zify; Z.to_euclidean_division_equations; lia|]).
    by apply IH.
Qed.

Lemma b64_char_alnum (i : N) : (i < 62)%N -> is_alnum (b64_char i) = true.
Proof.
  intros Hi. unfold b64_char, is_alnum.
  repeat match goal with
         | |- context [N.ltb ?a ?b] => destruct (N.ltb_spec a b)
         | |- context [N.eqb ?a ?b] => destruct (N.eqb_spec a b)
         end; try lia.
  - replace (65 <=? i + 65)%N with true by (symmetry; apply N.leb_le; lia).
    by replace (i + 65 <=? 90)%N with true by (symmetry; apply N.leb_le; lia).
  - replace (97 <=? i + 71)%N with true by (symmetry; apply N.leb_le; lia).
    replace (i + 71 <=? 122)%N with true by (symmetry; apply N.leb_le; lia).
    cbn. by rewrite orb_true_r.
  - replace (48 <=? i - 4)%N with true by (symmetry; apply N.leb_le; lia).
    replace (i - 4 <=? 57)%N with true by (symmetry; apply N.leb_le; lia).
    cbn. by rewrite orb_true_r.
Qed.

(** The token written for a string of plain bytes. *)
Lemma token_plain (s : jsstring) :
  Forall plain_byte s ->
  exists token,
    (encoded ← btoa s; mret (strip_trailing_eq encoded)) = Ok token /\
    token = List.map b64_char (enc_sextets s) /\
    Forall (fun c => is_alnum c = true) token.
Proof.
  intros Hs. eexists. split; [|split; [reflexivity|]].
  - rewrite btoa_bytes by by apply plain_bytes_bytes.
    cbn [mbind result_mbind result_bind mret result_mret].
    by rewrite b64_encode_split, strip_trailing_eq_chars.
  - apply Forall_map. eapply Forall_impl; [by apply enc_sextets_plain|].
    cbn. intros i Hi. by apply b64_char_alnum.
Qed.

Lemma idString_plain (a b : Z) :
  Forall plain_byte (toString a ++ str "x" ++ toString b).
Proof.
  apply Forall_app. split; [|apply Forall_app; split].
  - eapply Forall_impl; [apply toString_chars|]. apply plain_byte_digit_or_sign.
  - change (str "x") with [120%N]. apply Forall_cons_2; [by vm_compute|apply Forall_nil_2].
  - eapply Forall_impl; [apply toString_chars|]. apply plain_byte_digit_or_sign.
Qed.

(** X1: [encodeId] never throws, and its token is made of letters and
    digits only: no '=', '+' or '/', nothing a URL would escape. *)
Theorem encodeId_alphanumeric (headband run : number) :
  exists token,
    encodeId headband run = Ok token /\
    Forall (fun c => is_alnum c = true) token.
Proof.
  unfold encodeId.
  destruct (token_plain _ (idString_plain (xor headband (of_Z 11) + 37)
                             (xor run (of_Z 42) * 17 + 531)))
    as (token & Henc & _ & Halnum).
  by exists token.
Qed.

(** Decoding the token written for any byte string [s] is matching [s]. *)
Lemma decodeId_encoded (s : jsstring) :
  bytes s ->
  decodeId (strip_trailing_eq (b64_encode s)) =
  match match_fortune s with
  | Some g => Ok (Some (Fortune (parseInt g)))
  | None =>
      match match_data s with
      | Some (g1, g2) =>
          Ok (Some (Data (xor (sub (parseInt g1) (of_Z 37)) (of_Z 11))
                         (xor (div (sub (parseInt g2) (of_Z 531)) (of_Z 17))
                              (of_Z 42))))
      | None => Ok None
      end
  end.
Proof.
  intros Hs. unfold decodeId, decodeId_try, String_repeat.
  destruct (Z.ltb_spec (padding_length (strip_trailing_eq (b64_encode s))) 0)
    as [Hneg|_].
  { exfalso. revert Hneg. unfold padding_length.
    zify. Z.to_euclidean_division_equations. lia. }
  cbn [mbind result_mbind result_bind].
  rewrite repad_stripped, atob_b64_encode by done.
  cbn [mbind result_mbind result_bind].
  destruct (match_fortune s); [reflexivity|].
  by destruct (match_data s) as [[g1 g2]|].
Qed.

Lemma int32_lxor (a b : Z) : int32 a -> int32 b -> int32 (Z.lxor a b).
Proof.
  unfold int32. intros Ha Hb.
  change 2147483648%Z with (2 ^ 31)%Z in *.
  assert (Hl : forall x, (- 2 ^ 31 <= x < 0)%Z -> (0 <= Z.lnot x < 2 ^ 31)%Z).
  { intros x Hx. unfold Z.lnot. lia. }
  destruct (Z.lt_ge_cases a 0) as [Han|Hap], (Z.lt_ge_cases b 0) as [Hbn|Hbp].
  - rewrite <- Z.lxor_lnot_lnot.
    pose proof (lxor_bound (Z.lnot a) (Z.lnot b) 31 ltac:(lia)
                  (Hl a ltac:(lia)) (Hl b ltac:(lia))). lia.
  - pose proof (lxor_bound (Z.lnot a) b 31 ltac:(lia) (Hl a ltac:(lia)) ltac:(lia)) as H.
    rewrite <- Z.lnot_lxor_l in H. unfold Z.lnot in H. lia.
  - pose proof (lxor_bound (Z.lnot b) a 31 ltac:(lia) (Hl b ltac:(lia)) ltac:(lia)) as H.
    rewrite <- Z.lnot_lxor_l, (Z.lxor_comm b a) in H. unfold Z.lnot in H. lia.
  - pose proof (lxor_bound a b 31 ltac:(lia) ltac:(lia) ltac:(lia)). lia.
Qed.

Lemma int32_wrap32 (z : Z) : int32 (wrap32 z).
Proof.
  unfold int32, wrap32.
  pose proof (Z.mod_pos_bound (z + 2147483648) 4294967296 ltac:(lia)). lia.
Qed.

Lemma int32_xor (a b : number) : int32 (xor a b).
Proof.
  unfold xor. apply int32_lxor; (destruct a, b; cbn [ToInt32];
    first [apply int32_wrap32 | unfold int32; lia]).
Qed.

(** The round trip of the data identifier on 32-bit integers. *)
Lemma codec_round_trip (headband run : Z) :
  (0 <= headband)%Z -> int32 headband -> int32 run ->
  exists token,
    encodeId (of_Z headband) (of_Z run) = Ok token /\
    decodeId token = Ok (Some (Data headband run)).
Proof.
  unfold int32. intros Hh0 Hh Hr. unfold encodeId.
  assert (Eh : xor (of_Z headband) (of_Z 11) = Z.lxor headband 11).
  { unfold xor. by rewrite !ToInt32_of_Z, !wrap32_small by lia. }
  assert (Er : xor (of_Z run) (of_Z 42) = Z.lxor run 42).
  { unfold xor. by rewrite !ToInt32_of_Z, !wrap32_small by lia. }
  rewrite Eh, Er.
  pose proof (lxor_bound headband 11 31 ltac:(lia) ltac:(lia) ltac:(lia)) as Hxh.
  pose proof (int32_lxor run 42 Hr ltac:(unfold int32; lia)) as Hxr.
  unfold int32 in Hxr.
  set (a := (Z.lxor headband 11 + 37)%Z). set (b := (Z.lxor run 42 * 17 + 531)%Z).
  pose proof (idString_plain a b) as Hplain.
  exists (strip_trailing_eq (b64_encode (toString a ++ str "x" ++ toString b))).
  split.
  { by rewrite btoa_bytes by by apply plain_bytes_bytes. }
  rewrite decodeId_encoded by by apply plain_bytes_bytes.
  assert (Ha : (0 <= a)%Z) by (unfold a; lia).
  assert (Hf : match_fortune (toString a ++ str "x" ++ toString b) = None).
  { destruct (toString_nonneg a Ha) as (Hda & Hna & _).
    destruct (toString a) as [|d ds]; [done|]. cbn [app].
    apply match_fortune_digit. unfold all_digits in Hda. cbn [forallb] in Hda.
    by apply andb_true_iff in Hda as []. }
  rewrite Hf.
  rewrite (proj2 (match_data_spec _ _ _) (toString_matches_data a b Ha)).
  rewrite !parseInt_toString_any. do 3 f_equal.
  - unfold xor. rewrite ToInt32_sub, ToInt32_of_Z.
    unfold a. replace (Z.lxor headband 11 + 37 - 37)%Z with (Z.lxor headband 11) by lia.
    rewrite !wrap32_small by lia. apply lxor_cancel.
  - unfold xor. rewrite ToInt32_sub_div, ToInt32_of_Z.
    unfold b. replace (Z.lxor run 42 * 17 + 531 - 531)%Z with (Z.lxor run 42 * 17)%Z by lia.
    rewrite Z.quot_mul by done. rewrite !wrap32_small by lia. apply lxor_cancel.
Qed.

(** X2: the data round trip holds on the whole 32-bit range: for every
    non-negative 32-bit headband and every 32-bit run, negative ones
    included, [decodeId] reads back what [encodeId] wrote. *)
Theorem decodeId_encodeId_int32 (headband run : Z) :
  (0 <= headband)%Z -> int32 headband -> int32 run ->
  exists token,
    encodeId (of_Z headband) (of_Z run) = Ok token /\
    decodeId token = Ok (Some (Data headband run)).
Proof. apply codec_round_trip. Qed.

Lemma decodeId_encodeId_int32_witness :
  (0 <= 2147483647)%Z /\ int32 2147483647 /\ int32 (-2147483648) /\
  exists token,
    encodeId (of_Z 2147483647) (of_Z (-2147483648)) = Ok token /\
    decodeId token = Ok (Some (Data 2147483647 (-2147483648))).
Proof.
  assert (H1 : (0 <= 2147483647)%Z) by lia.
  assert (H2 : int32 2147483647) by (unfold int32; lia).
  assert (H3 : int32 (-2147483648)) by (unfold int32; lia).
  split; [exact H1|]. split; [exact H2|]. split; [exact H3|].
  exact (decodeId_encodeId_int32 2147483647 (-2147483648) H1 H2 H3).
Defined.

(** X3: distinct identifiers get distinct tokens: [encodeId] is injective
    on non-negative 32-bit headbands and 32-bit runs. *)
Theorem encodeId_injective (headband run headband' run' : Z) :
  (0 <= headband)%Z -> int32 headband -> int32 run ->
  (0 <= headband')%Z -> int32 headband' -> int32 run' ->
  encodeId (of_Z headband) (of_Z run) = encodeId (of_Z headband') (of_Z run') ->
  headband = headband' /\ run = run'.
Proof.
  intros H1 H2 H3 H1' H2' H3' E.
  destruct (codec_round_trip headband run H1 H2 H3) as (t & Ht & Hd).
  destruct (codec_round_trip headband' run' H1' H2' H3') as (t' & Ht' & Hd').
  rewrite Ht, Ht' in E. injection E as <-. rewrite Hd in Hd'.
  by injection Hd' as <- <-.
Qed.

Lemma encodeId_injective_witness :
  encodeId (of_Z 3) (of_Z 17) = encodeId (of_Z 3) (of_Z 17) /\
  (3 = 3 /\ 17 = 17)%Z.
Proof.
  split; [reflexivity|].
  apply (encodeId_injective 3 17 3 17); unfold int32; (lia || reflexivity).
Defined.

(** The round trip of the fortune identifier. *)
Lemma fortune_round_trip (timestamp : Z) :
  (0 <= timestamp <= 9007199254740991)%Z ->
  exists token,
    encodeRandomFortuneTimestamp timestamp = Ok token /\
    decodeId token = Ok (Some (Fortune (of_Z timestamp))).
Proof.
  intros [Ht _]. unfold encodeRandomFortuneTimestamp.
  destruct (toString_nonneg timestamp Ht) as (Hd & Hne & Hv).
  assert (Hb : bytes (str "f" ++ toString timestamp)).
  { apply Forall_app. split; [|by apply bytes_all_digits].
    change (str "f") with [102%N]. apply Forall_cons_2; [cbv beta; lia | apply Forall_nil_2]. }
  exists (strip_trailing_eq (b64_encode (str "f" ++ toString timestamp))). split.
  { by rewrite btoa_bytes. }
  rewrite decodeId_encoded by done.
  change (str "f" ++ toString timestamp) with (chr "f" :: toString timestamp).
  rewrite (proj2 (match_fortune_spec _ _) (matches_fortune_intro _ Hd Hne)).
  by rewrite parseInt_toString.
Qed.

(** X4: the fortune round trip: for every non-negative integer timestamp
    (up to 2^53 - 1, the integers JavaScript holds exactly), [decodeId]
    maps the token of [encodeRandomFortuneTimestamp] back to it. *)
Theorem decodeId_encodeRandomFortuneTimestamp (timestamp : Z) :
  (0 <= timestamp <= 9007199254740991)%Z ->
  exists token,
    encodeRandomFortuneTimestamp timestamp = Ok token /\
    decodeId token = Ok (Some (Fortune (of_Z timestamp))).
Proof. apply fortune_round_trip. Qed.

Lemma decodeId_encodeRandomFortuneTimestamp_witness :
  (0 <= 1762122000000 <= 9007199254740991)%Z /\
  exists token,
    encodeRandomFortuneTimestamp 1762122000000 = Ok token /\
    decodeId token = Ok (Some (Fortune (of_Z 1762122000000))).
Proof.
  assert (H : (0 <= 1762122000000 <= 9007199254740991)%Z) by lia.
  split; [exact H|].
  exact (decodeId_encodeRandomFortuneTimestamp 1762122000000 H).
Defined.

Lemma sextets_foreign (data : jsstring) (c : N) :
  In c data -> b64_index c = None -> sextets data = None.
Proof.
  intros Hin Hc. induction data as [|x data IH]; [done|].
  cbn [sextets]. destruct Hin as [->|Hin].
  - by rewrite Hc.
  - rewrite (IH Hin). by destruct (b64_index x).
Qed.

(** [remove_padding] leaves its argument, or drops one or two final '='. *)
Lemma remove_padding_cases (data : jsstring) :
  remove_padding data = data \/
  exists r, (rev data = pad :: r \/ rev data = pad :: pad :: r) /\
            remove_padding data = rev r.
Proof.
  unfold remove_padding, pad.
  destruct (length data mod 4 =? 0)%nat; [|by left].
  destruct (rev data) as [|x r]; [by left|].
  destruct x as [|p]; [by left|].
  repeat (destruct p as [p|p|]; try by left).
  destruct r as [|y r]; [right; exists []; by split; [left|]|].
  destruct y as [|p]; [right; exists (0%N :: r); by split; [left|]|].
  repeat (destruct p as [p|p|];
          try (right; eexists; split; [left; reflexivity | reflexivity])).
  right. exists r. by split; [right|].
Qed.

Lemma remove_padding_keeps (data : jsstring) (c : N) :
  In c data -> c <> pad -> In c (remove_padding data).
Proof.
  intros Hin Hc.
  destruct (remove_padding_cases data) as [->|(r & Hr & ->)]; [done|].
  apply in_rev in Hin. apply in_rev.
  rewrite rev_involutive.
  destruct Hr as [Hr|Hr]; rewrite Hr in Hin; cbn [In] in Hin; intuition congruence.
Qed.

Lemma atob_foreign (s : jsstring) (c : N) :
  In c s -> b64_index c = None -> is_ascii_whitespace c = false -> c <> pad ->
  atob s = Throw InvalidCharacterError.
Proof.
  intros Hin Hidx Hws Hpad. unfold atob.
  assert (H : In c (remove_padding
                      (List.filter (fun c => negb (is_ascii_whitespace c)) s))).
  { apply remove_padding_keeps; [|done]. apply filter_In. by rewrite Hws. }
  rewrite (sextets_foreign _ c H Hidx). by destruct (_ =? 1)%nat.
Qed.

Lemma decodeId_rejects_foreign (encodedId : jsstring) (c : N) :
  In c encodedId -> b64_index c = None ->
  is_ascii_whitespace c = false -> c <> pad ->
  decodeId encodedId = Ok None.
Proof.
  intros Hin Hidx Hws Hpad. unfold decodeId, decodeId_try.
  destruct (String_repeat pad (padding_length encodedId)) as [padding|e]; [|done].
  cbn [mbind result_mbind result_bind].
  rewrite (atob_foreign (encodedId ++ padding) c); [done| |done..].
  apply in_app_iff. by left.
Qed.

(** X5: a token with a character outside the base64 alphabet (other than
    white space and '=') is rejected: [decodeId] returns [null]. *)
Theorem decodeId_foreign_character (encodedId : jsstring) (c : N) :
  In c encodedId -> b64_index c = None ->
  is_ascii_whitespace c = false -> c <> pad ->
  decodeId encodedId = Ok None.
Proof. apply decodeId_rejects_foreign. Qed.

Lemma decodeId_foreign_character_witness :
  decodeId (str "NDh4-MTI2Mg") = Ok None.
Proof.
  apply (decodeId_foreign_character (str "NDh4-MTI2Mg") (chr "-")).
  - do 4 right. by left.
  - reflexivity.
  - reflexivity.
  - discriminate.
Defined.

Lemma decimal_nonneg (ds : jsstring) (acc : Z) :
  all_digits ds -> (0 <= acc)%Z -> (0 <= decimal ds acc)%Z.
Proof.
  unfold all_digits, decimal. revert acc.
  induction ds as [|d ds IH]; intros acc Hd Hacc; [done|].
  cbn [forallb] in Hd. apply andb_true_iff in Hd as [Hd Hds].
  cbn [fold_left]. apply IH; [done|].
  unfold is_digit in Hd. apply andb_true_iff in Hd as [H1%N.leb_le _].
  unfold digit_value. lia.
Qed.

(** X6: whatever the token, [decodeId] never yields [NaN]: a fortune
    timestamp is a number and not negative, and the headband and run of
    a data identifier are signed 32-bit integers. *)
Theorem decodeId_well_formed (encodedId : jsstring) :
  match decodeId encodedId with
  | Ok None => True
  | Ok (Some (Fortune timestamp)) => exists q, (0 <= q)%Q /\ timestamp = Num q
  | Ok (Some (Data headband run)) => int32 headband /\ int32 run
  | Throw _ => False
  end.
Proof.
  unfold decodeId, decodeId_try.
  destruct (String_repeat pad (padding_length encodedId)) as [padding|e]; [|done].
  cbn [mbind result_mbind result_bind].
  destruct (atob (encodedId ++ padding)) as [decoded|e]; [|done].
  cbn [mbind result_mbind result_bind].
  destruct (match_fortune decoded) as [g|] eqn:Hf.
  { apply match_fortune_spec in Hf. destruct Hf as [ds Hd Hne].
    cbn [try_catch mret result_mret]. exists (inject_Z (decimal ds 0)).
    split; [|by apply parseInt_digits].
    change 0%Q with (inject_Z 0). rewrite <- Zle_Qle. by apply decimal_nonneg. }
  destruct (match_data decoded) as [[g1 g2]|]; [|done].
  cbn [try_catch mret result_mret]. split; apply int32_xor.
Qed.

End Codec_more.

(** ** Averages and the normaliser *)

Section Average_facts.





Lemma normalize_cases (r : brainwaves) :
  ((band_sum r == 0)%Q /\ normalizeBrainwaves r = r) \/
  (~ (band_sum r == 0)%Q /\
   normalizeBrainwaves r =
   {| alpha := alpha r / band_sum r; beta := beta r / band_sum r;
      gamma := gamma r / band_sum r; delta := delta r / band_sum r;
      theta := theta r / band_sum r |}).
Proof.
  unfold normalizeBrainwaves. fold (band_sum r).
  destruct (Qeq_bool (band_sum r) 0) eqn:E.
  - left. by apply Qeq_bool_iff in E.
  - right. by apply Qeq_bool_neq in E.
Qed.

(** X8: for non-negative band values every output of
    [normalizeBrainwaves] is a proportion, between 0 and 1. *)
Theorem normalizeBrainwaves_proportions (rawValues : brainwaves) :
  nonneg_bands rawValues -> proportions (normalizeBrainwaves rawValues).
Proof.
  intros (Ha & Hb & Hg & Hd & Ht). unfold proportions.
  destruct (normalize_cases rawValues) as [[Hz ->]|[Hnz ->]].
  - unfold band_sum in Hz. repeat split; lra.
  - assert (Hpos : (0 < band_sum rawValues)%Q) by (unfold band_sum in *; lra).
    cbn [alpha beta gamma delta theta].
    repeat split;
      first [apply Qle_shift_div_l; [done|] | apply Qle_shift_div_r; [done|]];
      unfold band_sum; lra.
Qed.

Lemma normalizeBrainwaves_proportions_witness :
  proportions
    (normalizeBrainwaves {| alpha := 10; beta := 5; gamma := 1; delta := 1; theta := 3 |}).
Proof.
  apply normalizeBrainwaves_proportions.
  unfold nonneg_bands. cbn. repeat split; discriminate.
Defined.


End Average_facts.

(** ** Gradient colours *)

Section Gradient_facts.

Import Gradient.

(** X10: for a value between 0 and 1 the colour stays within the key
    points: lightness in [0.6, 1], chroma in [0.06, 0.18], hue in
    [250, 300]. *)
Theorem getGradientColor_range (v : Q) :
  (0 <= v <= 1)%Q ->
  match getGradientColor v with
  | oklch l c h =>
      (0.6 <= l <= 1 /\ 0.06 <= c <= 0.18 /\ 250 <= h <= 300)%Q
  end.
Proof.
  intros [H0 H1]. unfold getGradientColor.
  destruct (Qle_bool v 0.5) eqn:E.
  - apply Qle_bool_iff in E.
    assert (Ht : (0 <= v / 0.5 <= 1)%Q).
    { split; [apply Qle_shift_div_l | apply Qle_shift_div_r]; (reflexivity || lra). }
    cbn -[Qdiv Qmult Qplus Qminus Qle]. generalize dependent (v / 0.5)%Q.
    intros t [Ht0 Ht1]. repeat split; lra.
  - assert (E' : (0.5 < v)%Q).
    { apply Qnot_le_lt. intros Hle. apply Qle_bool_iff in Hle. congruence. }
    assert (Ht : (0 <= (v - 0.5) / 0.5 <= 1)%Q).
    { split; [apply Qle_shift_div_l | apply Qle_shift_div_r]; (reflexivity || lra). }
    cbn -[Qdiv Qmult Qplus Qminus Qle]. generalize dependent ((v - 0.5) / 0.5)%Q.
    intros t [Ht0 Ht1]. repeat split; lra.
Qed.

Lemma getGradientColor_range_witness :
  match getGradientColor 0.75 with
  | oklch l c h =>
      (0.6 <= l <= 1 /\ 0.06 <= c <= 0.18 /\ 250 <= h <= 300)%Q
  end.
Proof.
  apply (getGradientColor_range 0.75). split; discriminate.
Defined.

End Gradient_facts.

(** ** Labels and the message banks *)

Section Label_facts.


(** A seed that is not negative selects an entry of a non-empty list. *)
Lemma array_get_rem {A} (list : list A) (seed : Z) :
  (0 <= seed)%Z -> list <> [] ->
  exists x, array_get list (js_rem seed (Z.of_nat (length list))) = Some x /\ In x list.
Proof.
  intros Hseed Hne.
  assert (Hlen : (0 < Z.of_nat (length list))%Z) by (destruct list; [done | cbn; lia]).
  unfold js_rem, array_get. rewrite Z.rem_mod_nonneg by lia.
  pose proof (Z.mod_pos_bound seed _ Hlen) as Hidx.
  destruct (Z.ltb_spec (seed mod Z.of_nat (length list)) 0) as [|_]; [lia|].
  destruct (lookup_lt_is_Some_2 list (Z.to_nat (seed mod Z.of_nat (length list))))
    as [x Hx]; [lia|].
  exists x. split; [exact Hx|]. apply list_elem_of_In. by eapply list_elem_of_lookup_2.
Qed.












End Label_facts.

(** ** Fortune mode *)

Section FortuneMode_facts.

Import RichPage RichPageMore.

Lemma fold_app_concat {A} (table : list (string * list A)) (acc : list A) :
  fold_left (fun all category => all ++ snd category) table acc
  = acc ++ List.concat (List.map snd table).
Proof.
  revert acc. induction table as [|[k l] table IH]; intros acc; cbn.
  - by rewrite app_nil_r.
  - by rewrite IH, app_assoc.
Qed.

Lemma getAllFortunes_length : length getAllFortunes = 126%nat.
Proof. reflexivity. Qed.

(** The flat list holds the fortunes of the categories, and only them. *)
Lemma getAllFortunes_bank (fortune : string) :
  In fortune getAllFortunes <->
  exists category list, In (category, list) fortune_table /\ In fortune list.
Proof.
  unfold getAllFortunes. rewrite fold_app_concat. cbn [app].
  rewrite in_concat. split.
  - intros (l & Hl & Hf). apply in_map_iff in Hl as ([k l'] & <- & Hin).
    by exists k, l'.
  - intros (k & l & Hin & Hf). exists l. split; [|done].
    apply in_map_iff. by exists (k, l).
Qed.

(** X13: in fortune mode every timestamp that is not negative selects a
    message: the entry at [timestamp mod 126] of the 126 messages of the
    bank, which belongs to one of the categories. *)
Theorem getRandomFortuneFromTimestamp_selects (timestamp : Z) :
  (0 <= timestamp)%Z ->
  exists fortune,
    getRandomFortuneFromTimestamp timestamp = Some fortune /\
    getAllFortunes !! Z.to_nat (timestamp mod 126) = Some fortune /\
    exists category list, In (category, list) fortune_table /\ In fortune list.
Proof.
  intros Ht. unfold getRandomFortuneFromTimestamp.
  destruct (array_get_rem getAllFortunes timestamp Ht) as (fortune & Hf & Hin); [done|].
  exists fortune. split; [exact Hf|]. split; [|by apply getAllFortunes_bank].
  revert Hf. unfold array_get, js_rem. rewrite getAllFortunes_length.
  rewrite Z.rem_mod_nonneg by lia.
  change (Z.of_nat 126) with 126%Z.
  by destruct (Z.ltb_spec (timestamp mod 126) 0).
Qed.

Lemma getRandomFortuneFromTimestamp_selects_witness :
  (0 <= 1762122000000)%Z /\
  exists fortune,
    getRandomFortuneFromTimestamp 1762122000000 = Some fortune /\
    getAllFortunes !! Z.to_nat (1762122000000 mod 126) = Some fortune /\
    exists category list, In (category, list) fortune_table /\ In fortune list.
Proof.
  assert (H : (0 <= 1762122000000)%Z) by lia.
  split; [exact H|]. exact (getRandomFortuneFromTimestamp_selects _ H).
Defined.

(** X14: every message of the bank is the fortune of some timestamp. *)
Theorem getRandomFortuneFromTimestamp_covers (category : string) (list : list string)
    (fortune : string) :
  In (category, list) fortune_table -> In fortune list ->
  exists timestamp,
    (0 <= timestamp < 126)%Z /\
    getRandomFortuneFromTimestamp timestamp = Some fortune.
Proof.
  intros Hc Hf.
  assert (Hin : In fortune getAllFortunes) by (apply getAllFortunes_bank; eauto).
  apply list_elem_of_In, list_elem_of_lookup in Hin as [i Hi].
  pose proof (lookup_lt_Some _ _ _ Hi) as Hlt. rewrite getAllFortunes_length in Hlt.
  exists (Z.of_nat i). split; [lia|].
  unfold getRandomFortuneFromTimestamp, array_get, js_rem.
  rewrite getAllFortunes_length, Z.rem_small by lia.
  destruct (Z.ltb_spec (Z.of_nat i) 0); [lia|]. by rewrite Nat2Z.id.
Qed.

Lemma getRandomFortuneFromTimestamp_covers_witness :
  exists timestamp,
    (0 <= timestamp < 126)%Z /\
    getRandomFortuneFromTimestamp timestamp
    = Some "In this moment of equilibrium, you access the wisdom of all states at once.".
Proof.
  eapply (getRandomFortuneFromTimestamp_covers "balanced").
  - do 20 right. left. reflexivity.
  - do 5 right. left. reflexivity.
Defined.

End FortuneMode_facts.

(** ** Straight sections *)

Section Straight_facts.

Import RichPage RichPageMore.

Context {A : Type} (strict_eq : A -> A -> bool).

Lemma straight_loop_flags (rest : list A) (previous : A) (c : nat) :
  straight_loop strict_eq rest previous c
  = scan_flags (flags_from strict_eq rest previous) c.
Proof.
  revert previous c. induction rest as [|x rest IH]; intros previous c; [reflexivity|].
  cbn [straight_loop flags_from scan_flags]. by rewrite !IH.
Qed.

Lemma trues_from_cons (flag : bool) (flags : list bool) (s k : nat) :
  trues_from (flag :: flags) (S s) k <-> trues_from flags s k.
Proof.
  unfold trues_from. split; intros H j Hj.
  - apply (H (S j)). lia.
  - destruct j as [|j]; [lia|]. cbn. apply H. lia.
Qed.

Lemma trues_from_head (flag : bool) (flags : list bool) (k : nat) :
  trues_from (flag :: flags) 0 (S k) <-> flag = true /\ trues_from flags 0 k.
Proof.
  unfold trues_from. split.
  - intros H. split.
    + specialize (H 0%nat ltac:(lia)). cbn in H. by injection H.
    + intros j Hj. apply (H (S j)). lia.
  - intros [-> H] [|j] Hj; [reflexivity|]. cbn. apply H. lia.
Qed.

Lemma trues_from_shorter (flags : list bool) (s k k' : nat) :
  (k' <= k)%nat -> trues_from flags s k -> trues_from flags s k'.
Proof. unfold trues_from. intros Hk H j Hj. apply H. lia. Qed.

(** The loop on the comparisons finds a run: the one under way, if it
    goes on long enough, or a later run of twenty-nine. *)
Lemma scan_flags_spec (flags : list bool) (c : nat) :
  (1 <= c < 30)%nat ->
  scan_flags flags c = true <->
  trues_from flags 0 (30 - c) \/ exists s, trues_from flags s 29.
Proof.
  revert c. induction flags as [|flag flags IH]; intros c Hc.
  - cbn [scan_flags]. split; [done|].
    intros [H|[s H]].
    + specialize (H 0%nat ltac:(lia)). done.
    + specialize (H s ltac:(lia)). done.
  - cbn [scan_flags]. unfold threshold. destruct flag.
    + destruct (Nat.leb_spec 30 (S c)) as [Hle|Hlt].
      * split; [|done]. intros _. left.
        replace (30 - c)%nat with 1%nat by lia.
        apply trues_from_head. split; [done|]. intros j Hj. lia.
      * rewrite (IH (S c)) by lia.
        replace (30 - c)%nat with (S (30 - S c)) by lia.
        rewrite trues_from_head. split.
        -- intros [H|[s H]]; [by left|]. right. exists (S s). by apply trues_from_cons.
        -- intros [[_ H]|[[|s] H]]; [by left| |].
           ++ left. replace 29%nat with (S 28) in H by lia.
              apply trues_from_head in H as [_ H].
              apply (trues_from_shorter flags 0 28); [lia | done].
           ++ right. exists s. by apply trues_from_cons in H.
    + rewrite (IH 1%nat) by lia. split.
      * intros [H|[s H]]; right.
        -- exists 1%nat. by apply trues_from_cons.
        -- exists (S s). by apply trues_from_cons.
      * intros [H|[[|s] H]].
        -- specialize (H 0%nat ltac:(lia)). done.
        -- specialize (H 0%nat ltac:(lia)). done.
        -- right. exists s. by apply trues_from_cons in H.
Qed.

Lemma flags_from_lookup (rest : list A) (previous : A) (j : nat) (flag : bool) :
  flags_from strict_eq rest previous !! j = Some flag <->
  exists a b, (previous :: rest) !! S j = Some a /\ (previous :: rest) !! j = Some b /\
              flag = strict_eq a b.
Proof.
  revert previous j. induction rest as [|x rest IH]; intros previous j.
  - cbn. split; [done|]. by intros (a & b & Ha & _).
  - destruct j as [|j]; cbn [flags_from].
    + cbn. split.
      * intros [= <-]. by exists x, previous.
      * by intros (a & b & [= <-] & [= <-] & ->).
    + change ((strict_eq x previous :: flags_from strict_eq rest x) !! S j)
        with (flags_from strict_eq rest x !! j).
      rewrite IH. reflexivity.
Qed.

Lemma flags_from_length (rest : list A) (previous : A) :
  length (flags_from strict_eq rest previous) = length rest.
Proof.
  revert previous. induction rest as [|x rest IH]; intros previous; [reflexivity|].
  cbn. by rewrite IH.
Qed.

Lemma trues_from_straight (rest : list A) (first : A) (s : nat) :
  trues_from (flags_from strict_eq rest first) s 29
  <-> straight_from strict_eq (first :: rest) s.
Proof.
  unfold trues_from, straight_from. split.
  - intros H. split.
    + pose proof (lookup_lt_Some _ _ _ (H (s + 28)%nat ltac:(lia))) as Hlt.
      rewrite flags_from_length in Hlt. cbn [length]. lia.
    + intros j a b Hj Ha Hb.
      destruct j as [|j]; [lia|].
      specialize (H j ltac:(lia)).
      apply flags_from_lookup in H as (a' & b' & Ha' & Hb' & E).
      replace (S j - 1)%nat with j in Hb by lia. congruence.
  - intros [Hlen H] j Hj. cbn [length] in Hlen.
    assert (Hj1 : (S j < length (first :: rest))%nat) by (cbn [length]; lia).
    assert (Hj0 : (j < length (first :: rest))%nat) by (cbn [length]; lia).
    apply lookup_lt_is_Some_2 in Hj1 as [a Ha].
    apply lookup_lt_is_Some_2 in Hj0 as [b Hb].
    apply flags_from_lookup. exists a, b. split; [done|]. split; [done|].
    symmetry. apply (H (S j)); [lia | done |].
    by replace (S j - 1)%nat with j by lia.
Qed.

Lemma straight_in_spec (v : value (A:=A)) :
  straight_in strict_eq v = true <->
  exists data s, v = Arr data /\ straight_from strict_eq data s.
Proof.
  destruct v as [data|]; cbn [straight_in].
  2:{ split; [done|]. by intros (data & s & ? & _). }
  unfold threshold. destruct (Nat.ltb_spec (length data) 30) as [Hshort|Hlong].
  { split; [done|]. intros (data' & s & [= <-] & Hlen & _). lia. }
  destruct data as [|first rest]; [cbn in Hlong; lia|].
  rewrite straight_loop_flags, scan_flags_spec by lia. split.
  - intros [H|[s H]].
    + exists (first :: rest), 0%nat. split; [done|]. by apply trues_from_straight.
    + exists (first :: rest), s. split; [done|]. by apply trues_from_straight.
  - intros (data' & s & [= <-] & H). right. exists s. by apply trues_from_straight.
Qed.


End Straight_facts.

(** ** The tail deduplicator, beyond idempotence *)

Section TailDedup_more.

Import RichPage RichPageMore.

Context {A : Type} (strict_eq : A -> A -> bool).

Implicit Types (d : list (string * value (A:=A))) (n i c : nat).

Lemma slice_tail_zero d :
  List.map (fun entry => (fst entry, slice_tail 0 (snd entry))) d = d.
Proof.
  induction d as [|[k v] d IH]; [reflexivity|]. cbn [List.map fst snd].
  rewrite IH. f_equal. f_equal. destruct v as [l|]; [|reflexivity].
  cbn [slice_tail]. by rewrite Nat.sub_0_r, firstn_all.
Qed.

(** The first loop finds a length no array falls short of. *)
Lemma scan_lengths_min d (b : bound) (m : nat) :
  scan_lengths d b = Some (Finite m) ->
  Forall (fun entry => exists l, snd entry = Arr l /\ (m <= length l)%nat) d.
Proof.
  assert (H : forall d b m, scan_lengths d b = Some (Finite m) ->
            Forall (fun entry => exists l, snd entry = Arr l /\ (m <= length l)%nat) d /\
            forall k, b = Finite k -> (m <= k)%nat).
  { clear. induction d as [|[key v] d IH]; intros b m Hs.
    - cbn in Hs. injection Hs as ->. split; [constructor|]. intros k [= ->]. lia.
    - destruct v as [l|]; [|done]. cbn [scan_lengths] in Hs.
      destruct (IH _ _ Hs) as [Hall Hle]. split.
      + constructor; [|done]. exists l. split; [done|].
        destruct b as [|k]; cbn [Math_min] in Hle.
        * apply (Hle (length l) eq_refl).
        * specialize (Hle _ eq_refl). lia.
      + intros k ->. cbn [Math_min] in Hle. specialize (Hle _ eq_refl). lia. }
  intros Hs. by destruct (H d b m Hs).
Qed.

Lemma removeRepeatedTail_cut d :
  exists c,
    removeRepeatedTail strict_eq d
    = List.map (fun entry => (fst entry, slice_tail c (snd entry))) d /\
    (c = 0%nat \/
     Forall (fun entry => exists l, snd entry = Arr l /\ (c < length l)%nat) d).
Proof.
  assert (Hsame : exists c,
             d = List.map (fun entry => (fst entry, slice_tail c (snd entry))) d /\
             (c = 0%nat \/
              Forall (fun entry => exists l, snd entry = Arr l /\ (c < length l)%nat) d)).
  { exists 0%nat. split; [by rewrite slice_tail_zero | by left]. }
  unfold removeRepeatedTail. destruct d as [|e d0] eqn:Ed; [done|]. rewrite <- Ed in *.
  clear Ed e d0.
  destruct (scan_lengths d Infinity) as [[|m]|] eqn:Hs; [done| |done].
  destruct (Nat.leb_spec m 1) as [|Hm]; [done|].
  destruct (Nat.ltb_spec 0 (scan_tail strict_eq d (m - 1) 0)) as [Hc|]; [|done].
  exists (scan_tail strict_eq d (m - 1) 0). split; [reflexivity|]. right.
  destruct (scan_tail_stop strict_eq d (m - 1)) as [Hle _].
  eapply Forall_impl; [by eapply scan_lengths_min|].
  cbn. intros entry (l & Hl & Hlen). exists l. split; [done | lia].
Qed.

(** Above the position where the scan stops, every array repeats. *)
Lemma scan_tail_repeats d i j :
  (i - scan_tail strict_eq d i 0 < j <= i)%nat -> allRepeated strict_eq d j = true.
Proof.
  revert j. induction i as [|i IH]; intros j Hj; [lia|].
  cbn [scan_tail] in Hj. destruct (allRepeated strict_eq d (S i)) eqn:E; [|lia].
  rewrite scan_tail_acc in Hj.
  destruct (Nat.eq_dec j (S i)) as [->|Hne]; [done|]. apply IH. lia.
Qed.

Lemma repeated_at_equal (l : list A) (j : nat) :
  (forall a b, strict_eq a b = true -> a = b) ->
  (0 < j < length l)%nat -> repeated_at strict_eq j (Arr l) = true ->
  l !! j = l !! (j - 1)%nat.
Proof.
  intros Heq Hj. cbn [repeated_at].
  destruct (lookup_lt_is_Some_2 l j ltac:(lia)) as [a ->].
  destruct (lookup_lt_is_Some_2 l (j - 1)%nat ltac:(lia)) as [b ->].
  intros H. f_equal. by apply Heq.
Qed.

(** X16: on equal-length arrays, with an equality test that holds of
    equal samples only, what [removeRepeatedTail] removes from an array
    are copies of the last sample it keeps. *)
Theorem removeRepeatedTail_echoes n d :
  equal_length_arrays n d ->
  (forall a b, strict_eq a b = true -> a = b) ->
  exists c,
    removeRepeatedTail strict_eq d
    = List.map (fun entry => (fst entry, slice_tail c (snd entry))) d /\
    (c < n \/ c = 0)%nat /\
    forall key l, In (key, Arr l) d ->
      forall x, l !! (n - c - 1)%nat = Some x ->
                l = take (n - c) l ++ replicate c x.
Proof.
  intros Hd Heq.
  assert (Hzero : exists c,
             d = List.map (fun entry => (fst entry, slice_tail c (snd entry))) d /\
             (c < n \/ c = 0)%nat /\
             forall key l, In (key, Arr l) d ->
               forall x, l !! (n - c - 1)%nat = Some x ->
                         l = take (n - c) l ++ replicate c x).
  { exists 0%nat. split; [by rewrite slice_tail_zero|]. split; [by right|].
    intros key l Hin x _. cbn [replicate]. rewrite app_nil_r, Nat.sub_0_r.
    apply (proj1 (List.Forall_forall _ _) Hd) in Hin as (l' & [= <-] & Hlen).
    rewrite <- Hlen. symmetry. apply firstn_all. }
  destruct (decide (d = [])) as [->|Hne]; [done|].
  assert (Hf : removeRepeatedTail strict_eq d =
               match scan_lengths d Infinity with
               | None => d
               | Some Infinity => d
               | Some (Finite minLength) =>
                   if (minLength <=? 1)%nat then d
                   else
                     let removeCount := scan_tail strict_eq d (minLength - 1) 0 in
                     if (0 <? removeCount)%nat
                     then List.map (fun entry => (fst entry,
                                                  slice_tail removeCount (snd entry))) d
                     else d
               end).
  { by destruct d. }
  rewrite Hf. clear Hf. rewrite (scan_lengths_start n d Hne Hd). cbv zeta.
  destruct (Nat.leb_spec n 1) as [|Hn]; [done|].
  destruct (Nat.ltb_spec 0 (scan_tail strict_eq d (n - 1) 0)) as [Hc|]; [|done].
  set (c := scan_tail strict_eq d (n - 1) 0) in *.
  destruct (scan_tail_stop strict_eq d (n - 1)) as [Hle _]. fold c in Hle.
  exists c. split; [reflexivity|]. split; [left; lia|].
  intros key l Hin x Hx.
  pose proof (proj1 (List.Forall_forall _ _) Hd _ Hin) as (l' & [= <-] & Hlen).
  assert (Hrep : forall j, (n - 1 - c < j <= n - 1)%nat ->
                           repeated_at strict_eq j (Arr l) = true).
  { intros j Hj. pose proof (scan_tail_repeats d (n - 1) j Hj) as Hall.
    unfold allRepeated in Hall. rewrite forallb_forall in Hall.
    apply (Hall (key, Arr l) Hin). }
  assert (Hall : forall k, (k <= c)%nat -> l !! (n - c - 1 + k)%nat = Some x).
  { induction k as [|k IH]; intros Hk.
    - by rewrite Nat.add_0_r.
    - rewrite (repeated_at_equal l (n - c - 1 + S k)) by (done || lia || (apply Hrep; lia)).
      replace (n - c - 1 + S k - 1)%nat with (n - c - 1 + k)%nat by lia.
      apply IH. lia. }
  rewrite <- (firstn_skipn (n - c) l) at 1. f_equal.
  apply list_eq. intros k.
  change (skipn (n - c) l) with (drop (n - c) l). rewrite lookup_drop.
  destruct (Nat.lt_ge_cases k c) as [Hk|Hk].
  - rewrite lookup_replicate_2 by done.
    replace (n - c + k)%nat with (n - c - 1 + S k)%nat by lia. apply Hall. lia.
  - rewrite (proj1 (lookup_replicate_None c x k) Hk).
    apply lookup_ge_None_2. lia.
Qed.

(** X17: whatever the argument, [removeRepeatedTail] keeps the keys and
    their order and cuts the same number of final samples from every
    array; it removes nothing when a value is not an array, and it
    never removes all the samples of an array. *)
Theorem removeRepeatedTail_uniform_cut d :
  exists c,
    removeRepeatedTail strict_eq d
    = List.map (fun entry => (fst entry, slice_tail c (snd entry))) d /\
    (c = 0%nat \/
     Forall (fun entry => exists l, snd entry = Arr l /\ (c < length l)%nat) d).
Proof. apply removeRepeatedTail_cut. Qed.

Lemma straight_from_take (data : list A) (k s : nat) :
  straight_from strict_eq (take k data) s -> straight_from strict_eq data s.
Proof.
  unfold straight_from. intros [Hlen H].
  pose proof (length_take data k) as Ht. split; [lia|].
  intros j a b Hj Ha Hb. apply (H j); [done| |];
    by rewrite lookup_take_lt by lia.
Qed.

(** X18: trimming never produces a straight section: when
    [detectLongStraightSections] finds one in the result of
    [removeRepeatedTail], the argument had one. *)
Theorem detectLongStraightSections_after_trim d :
  detectLongStraightSections strict_eq (removeRepeatedTail strict_eq d) = true ->
  detectLongStraightSections strict_eq d = true.
Proof.
  destruct (removeRepeatedTail_cut d) as (c & -> & _).
  unfold detectLongStraightSections. rewrite !existsb_exists.
  intros (entry' & Hin & Hs). apply in_map_iff in Hin as ([key v] & <- & Hin).
  exists (key, v). split; [done|]. cbn [fst snd] in *.
  apply straight_in_spec in Hs as (data' & s & Hv & Hs).
  destruct v as [data|]; [|done]. cbn [slice_tail] in Hv. injection Hv as <-.
  apply straight_in_spec. exists data, s. split; [done|].
  by eapply straight_from_take.
Qed.

End TailDedup_more.

Lemma removeRepeatedTail_echoes_witness :
  exists c,
    RichPage.removeRepeatedTail Z.eqb
      [("a", RichPage.Arr [1; 2; 3; 3; 3]%Z); ("b", RichPage.Arr [5; 6; 7; 7; 7]%Z)]
    = List.map (fun entry => (fst entry, RichPage.slice_tail c (snd entry)))
        [("a", RichPage.Arr [1; 2; 3; 3; 3]%Z); ("b", RichPage.Arr [5; 6; 7; 7; 7]%Z)] /\
    (c < 5 \/ c = 0)%nat /\
    forall key l,
      In (key, RichPage.Arr l)
         [("a", RichPage.Arr [1; 2; 3; 3; 3]%Z); ("b", RichPage.Arr [5; 6; 7; 7; 7]%Z)] ->
      forall x, l !! (5 - c - 1)%nat = Some x ->
                l = take (5 - c) l ++ replicate c x.
Proof.
  apply (@removeRepeatedTail_echoes Z Z.eqb 5).
  - repeat constructor; eexists; split; reflexivity.
  - intros a b H. by apply Z.eqb_eq.
Defined.

Lemma detectLongStraightSections_after_trim_witness :
  RichPageMore.detectLongStraightSections Z.eqb
    [("a", RichPage.Arr (replicate 31 0%Z ++ [1; 1]%Z))] = true.
Proof.
  apply (@detectLongStraightSections_after_trim Z Z.eqb). reflexivity.
Defined.

(** ** The waveform synthesisers, beyond one band *)

Section Waveform_more.

Import RichPage.

Lemma brainwaveSpecs_known (brainwaveType : string) :
  is_Some (brainwaveSpecs !! brainwaveType) <->
  In brainwaveType ["delta"; "theta"; "alpha"; "beta"; "gamma"].
Proof.
  split.
  - intros [spec Hspec]. unfold brainwaveSpecs in Hspec.
    apply elem_of_list_to_map_2, list_elem_of_In in Hspec. cbn [In] in *.
    intuition congruence.
  - cbn [In]. intros [<-|[<-|[<-|[<-|[<-|[]]]]]]; eexists; vm_compute; reflexivity.
Qed.

(** [Math.sin] and [Math.PI], whatever they compute. *)
Variable sin : Q -> Q.
Variable PI : Q.





End Waveform_more.



(** ** Wave components and the flat wave *)

Section Component_facts.

Import RichPage.

Lemma brainwaveSpecs_proper (brainwaveType : string) (spec : bandSpec) :
  brainwaveSpecs !! brainwaveType = Some spec -> proper_spec spec.
Proof.
  intros Hspec. unfold brainwaveSpecs in Hspec.
  apply elem_of_list_to_map_2, list_elem_of_In in Hspec. cbn [In] in Hspec.
  unfold proper_spec.
  destruct Hspec as [E|[E|[E|[E|[E|[]]]]]]; injection E as _ <-; cbn;
    repeat split; discriminate.
Qed.

Lemma position_ratio (i n : nat) :
  (i < n)%nat -> (0 < (of_nat i + 1) / (of_nat n + 2) < 1)%Q.
Proof.
  intros Hi.
  assert (H0 : (0 <= of_nat i)%Q).
  { unfold of_nat. change 0%Q with (inject_Z 0). rewrite <- Zle_Qle. lia. }
  assert (H1 : (of_nat i < of_nat n)%Q).
  { unfold of_nat. rewrite <- Zlt_Qlt. lia. }
  split.
  - apply Qlt_shift_div_l; lra.
  - apply Qlt_shift_div_r; lra.
Qed.

Lemma frequency_inside (lo hi r : Q) :
  (lo < hi)%Q -> (0 < r < 1)%Q -> (lo < lo + (hi - lo) * r < hi)%Q.
Proof.
  intros Hlh [Hr0 Hr1].
  assert (H1 : (0 < (hi - lo) * r)%Q) by (apply Qmult_lt_0_compat; lra).
  assert (H2 : ((hi - lo) * r < (hi - lo) * 1)%Q) by (apply Qmult_lt_l; lra).
  lra.
Qed.

Lemma weight_bounds (dist far : Q) :
  (0 <= dist <= far)%Q -> (0 < far)%Q ->
  (0.7 <= 1 - dist / far * 0.3 <= 1)%Q.
Proof.
  intros [H0 H1] Hfar.
  assert (Hq : (0 <= dist / far <= 1)%Q).
  { split; [apply Qle_shift_div_l | apply Qle_shift_div_r]; lra. }
  generalize dependent (dist / far)%Q. intros q Hq. lra.
Qed.

Lemma distance_bounds (spec : bandSpec) (f : Q) :
  proper_spec spec -> (minHz spec < f < maxHz spec)%Q ->
  (0 <= Qabs (f - centerHz spec)
   <= Qmax (centerHz spec - minHz spec) (maxHz spec - centerHz spec))%Q /\
  (0 < Qmax (centerHz spec - minHz spec) (maxHz spec - centerHz spec))%Q.
Proof.
  intros (Hlh & Hc1 & Hc2) [Hf1 Hf2].
  pose proof (Q.le_max_l (centerHz spec - minHz spec) (maxHz spec - centerHz spec)) as Hl.
  pose proof (Q.le_max_r (centerHz spec - minHz spec) (maxHz spec - centerHz spec)) as Hr.
  split; [split|].
  - apply Qabs_nonneg.
  - apply Qabs_Qle_condition. split; lra.
  - lra.
Qed.

(** X21: for each of the five bands the synthesiser builds [numWaves]
    components, each with a frequency strictly inside the band (scaled
    by 1/20) and, for an amplitude that is not negative, an amplitude
    between 70% and 100% of it. *)
Theorem waveComponents_bounds (PI : Q) (brainwaveType : string) (spec : bandSpec)
    (amp : Q) :
  brainwaveSpecs !! brainwaveType = Some spec -> (0 <= amp)%Q ->
  length (waveComponents PI spec amp) = numWaves spec /\
  Forall (fun c => (0.7 * amp <= amplitude c <= amp)%Q /\
                   (minHz spec / 20 < freq c < maxHz spec / 20)%Q)
         (waveComponents PI spec amp).
Proof.
  intros Hspec Hamp. pose proof (brainwaveSpecs_proper _ _ Hspec) as Hproper.
  unfold waveComponents. split; [by rewrite length_map, length_seq|].
  apply Forall_map. apply Forall_forall. intros n Hn%list_elem_of_In%in_seq.
  cbn [amplitude freq].
  pose proof (position_ratio n (numWaves spec) ltac:(lia)) as Hr.
  pose proof (frequency_inside (minHz spec) (maxHz spec) _ (proj1 Hproper) Hr) as Hf.
  destruct (distance_bounds spec _ Hproper Hf) as [Hdist Hfar].
  pose proof (weight_bounds _ _ Hdist Hfar) as [Hw1 Hw2].
  set (f := (minHz spec + (maxHz spec - minHz spec)
             * ((of_nat n + 1) / (of_nat (numWaves spec) + 2)))%Q) in *.
  set (w := (1 - Qabs (f - centerHz spec)
                 / Qmax (centerHz spec - minHz spec) (maxHz spec - centerHz spec)
                 * 0.3)%Q) in *.
  split; split.
  - apply Qmult_le_compat_r; done.
  - rewrite <- (Qmult_1_l amp) at 2. apply Qmult_le_compat_r; done.
  - unfold Qdiv. apply Qmult_lt_compat_r; [reflexivity | tauto].
  - unfold Qdiv. apply Qmult_lt_compat_r; [reflexivity | tauto].
Qed.

Lemma waveComponents_bounds_witness :
  length (waveComponents PI_example
            {| minHz := 30; maxHz := 100; centerHz := 65; numWaves := 2 |} 1)
  = 2%nat /\
  Forall (fun c => (0.7 * 1 <= amplitude c <= 1)%Q /\ (30 / 20 < freq c < 100 / 20)%Q)
         (waveComponents PI_example
            {| minHz := 30; maxHz := 100; centerHz := 65; numWaves := 2 |} 1).
Proof.
  apply (waveComponents_bounds PI_example "gamma"
           {| minHz := 30; maxHz := 100; centerHz := 65; numWaves := 2 |} 1);
    [reflexivity | discriminate].
Defined.

Lemma silent_raw_point (sin : Q -> Q) (PI : Q) (components : list waveComponent)
    (width x : Z) :
  Forall (fun c => (amplitude c == 0)%Q) components ->
  (rawPoint sin PI components width x == 0)%Q.
Proof.
  intros H. unfold rawPoint.
  generalize ((inject_Z x / inject_Z width) * PI * 8)%Q. intros t.
  assert (G : forall acc, (acc == 0)%Q ->
            (fold_left (fun y c => y + sin (t * freq c + phase c) * amplitude c)
               components acc == 0)%Q).
  { induction H as [|c components Hc _ IH]; intros acc Hacc; [done|].
    cbn [fold_left]. apply IH. rewrite Hacc, Hc. ring. }
  by apply G.
Qed.

Lemma silent_sum (values : list Q) :
  Forall (fun v => (v == 0)%Q) values -> (fold_left Qplus values 0 == 0)%Q.
Proof.
  intros H.
  assert (G : forall acc, (acc == 0)%Q -> (fold_left Qplus values acc == 0)%Q).
  { induction H as [|v values Hv _ IH]; intros acc Hacc; [done|].
    cbn [fold_left]. apply IH. rewrite Hacc, Hv. reflexivity. }
  by apply G.
Qed.

Lemma clamp_inside (low high y : Q) :
  (low <= y <= high)%Q -> (Qmax low (Qmin high y) == y)%Q.
Proof.
  intros [H1 H2].
  assert (E : (Qmin high y == y)%Q) by by apply Q.min_r.
  rewrite (Q.max_r low (Qmin high y)); [done|]. by rewrite E.
Qed.

(** X22: with amplitude 0 the wave of the richer page is flat: for each
    of the five bands and a height of at least 2, every point lies at
    mid-height. *)
Theorem generateFrequencyWeightedWave_silent (sin : Q -> Q) (PI : Q)
    (brainwaveType : string) (width height : Z) :
  In brainwaveType ["delta"; "theta"; "alpha"; "beta"; "gamma"] ->
  (2 <= height)%Z ->
  exists points,
    generateFrequencyWeightedWave sin PI brainwaveType 0 width height = Polyline points /\
    Forall (fun p => (snd p == inject_Z height / 2)%Q) points.
Proof.
  intros [spec Hspec]%brainwaveSpecs_known Hh.
  unfold generateFrequencyWeightedWave. rewrite Hspec.
  eexists. split; [reflexivity|].
  assert (Hsilent : Forall (fun c => (amplitude c == 0)%Q) (waveComponents PI spec 0)).
  { unfold waveComponents. apply Forall_map, Forall_forall. intros n _.
    cbn [amplitude]. ring. }
  set (components := waveComponents PI spec 0) in *.
  set (rawPoints := List.map (rawPoint sin PI components width) (seqZ 0 width)).
  assert (Hraw : Forall (fun v => (v == 0)%Q) rawPoints).
  { unfold rawPoints. apply Forall_map, Forall_forall. intros x _.
    by apply silent_raw_point. }
  assert (Hnth : forall i, (nth i rawPoints 0 == 0)%Q).
  { intros i. destruct (nth_in_or_default i rawPoints 0%Q) as [Hin| ->]; [|done].
    by apply (proj1 (List.Forall_forall _ _) Hraw). }
  apply Forall_map, Forall_forall. intros x _. cbn [snd].
  assert (Hbound : (inject_Z 2 <= inject_Z height)%Q) by by rewrite <- Zle_Qle.
  change (inject_Z 2) with 2%Q in Hbound.
  assert (Hhalf : (1 <= inject_Z height / 2 <= inject_Z height - 1)%Q).
  { split; [apply Qle_shift_div_l | apply Qle_shift_div_r]; lra. }
  assert (Ey : (inject_Z height / 2
                - (nth (Z.to_nat x) rawPoints 0
                   - fold_left Qplus rawPoints 0 / of_nat (length rawPoints))
                  * (inject_Z height / 3)
                == inject_Z height / 2)%Q).
  { rewrite Hnth, (silent_sum rawPoints Hraw). unfold Qdiv. ring. }
  rewrite clamp_inside; [exact Ey|]. by rewrite Ey.
Qed.

Lemma generateFrequencyWeightedWave_silent_witness :
  exists points,
    generateFrequencyWeightedWave sin_example PI_example "delta" 0 80 60
    = Polyline points /\
    Forall (fun p => (snd p == inject_Z 60 / 2)%Q) points.
Proof.
  apply (generateFrequencyWeightedWave_silent sin_example PI_example "delta" 80 60);
    [by left | lia].
Defined.

End Component_facts.

(** ** The query string *)

Section Url_facts.

Import Url.

Lemma digit_not_space (c : N) :
  is_digit c = true -> is_StrWhiteSpaceChar c = false /\ radix_digit 10 c = Some (digit_value c).
Proof.
  unfold is_digit. intros [H1%N.leb_le H2%N.leb_le]%andb_true_iff.
  assert (Hc : In c [48; 49; 50; 51; 52; 53; 54; 55; 56; 57]%N).
  { cbn [In]. lia. }
  cbn [In] in Hc. by repeat (destruct Hc as [<-|Hc]; [done|]).
Qed.

Lemma radix_prefix_digits (ds : jsstring) :
  all_digits ds -> radix_prefix 10 ds = digit_value <$> ds.
Proof.
  unfold all_digits. induction ds as [|d ds IH]; [done|].
  cbn [forallb radix_prefix]. intros [Hd Hds]%andb_true_iff.
  destruct (digit_not_space d Hd) as [_ ->]. by rewrite (IH Hds).
Qed.

Lemma decimal_values (ds : jsstring) (acc : Z) :
  fold_left (fun a d => a * 10 + d)%Z (digit_value <$> ds) acc = decimal ds acc.
Proof.
  unfold decimal. revert acc. induction ds as [|d ds IH]; intros acc; [done|].
  cbn [fmap list_fmap fold_left]. apply IH.
Qed.

(** Reading a run of decimal digits after an optional sign. *)
Lemma parseInt_full_digits (sign : Z) (ds : jsstring) :
  all_digits ds -> nonempty ds = true ->
  (let '(radix, s) :=
     match ds with
     | z :: x :: t =>
         if ((z =? 48) && ((x =? 120) || (x =? 88)))%N then (16%Z, t) else (10%Z, ds)
     | _ => (10%Z, ds)
     end in
   match radix_prefix radix s with
   | [] => NaN
   | vs => of_Z (sign * fold_left (fun a d => a * radix + d) vs 0)%Z
   end) = of_Z (sign * decimal ds 0).
Proof.
  intros Hds Hne.
  assert (E : match ds with
              | z :: x :: t =>
                  if ((z =? 48) && ((x =? 120) || (x =? 88)))%N then (16%Z, t)
                  else (10%Z, ds)
              | _ => (10%Z, ds)
              end = (10%Z, ds)).
  { destruct ds as [|z [|x t]]; [done..|].
    assert (Hx : is_digit x = true).
    { unfold all_digits in Hds. cbn [forallb] in Hds.
      by apply andb_true_iff in Hds as [_ [? _]%andb_true_iff]. }
    unfold is_digit in Hx. apply andb_true_iff in Hx as [_ Hx%N.leb_le].
    destruct (N.eqb_spec x 120) as [?|_]; [lia|].
    destruct (N.eqb_spec x 88) as [?|_]; [lia|].
    by rewrite andb_false_r. }
  rewrite E, (radix_prefix_digits ds Hds).
  destruct ds as [|d ds]; [done|].
  by rewrite <- (decimal_values (d :: ds) 0).
Qed.

Lemma parseInt_full_toString (z : Z) : parseInt_full (toString z) = of_Z z.
Proof.
  destruct (Z.lt_ge_cases z 0) as [Hz|Hz].
  - destruct (toString_negative z Hz) as (ds & -> & Hd & Hne & Hv).
    unfold parseInt_full. change (chr "-") with 45%N. cbn [drop_while].
    change (is_StrWhiteSpaceChar 45) with false. cbn iota.
    change (45 =? 45)%N with true. cbn iota.
    rewrite (parseInt_full_digits (-1) ds Hd Hne), Hv. f_equal. f_equal. lia.
  - destruct (toString_nonneg z) as (Hd & Hne & Hv); [lia|].
    unfold parseInt_full. destruct (toString z) as [|d ds] eqn:E; [done|].
    assert (Hdig : is_digit d = true).
    { unfold all_digits in Hd. cbn [forallb] in Hd. by apply andb_true_iff in Hd as []. }
    cbn [drop_while]. destruct (digit_not_space d Hdig) as [-> _].
    destruct (digit_not_sign d Hdig) as (-> & -> & _).
    rewrite (parseInt_full_digits 1 (d :: ds) Hd Hne), Hv. f_equal. f_equal. lia.
Qed.

Lemma toString_truthy (z : Z) : truthy (Some (toString z)) = true.
Proof.
  destruct (Z.lt_ge_cases z 0) as [Hz|Hz].
  - by destruct (toString_negative z Hz) as (ds & -> & _).
  - destruct (toString_nonneg z) as (_ & Hne & _); [lia|].
    by destruct (toString z).
Qed.

Lemma getUrlParams_id (params : searchParams) (token : jsstring) (d : identifier) :
  get params (str "id") = Some token -> decodeId token = Ok (Some d) ->
  getUrlParams params = Ok (Decoded d).
Proof.
  intros Hget Hd. unfold getUrlParams. rewrite Hget.
  destruct token as [|c token]; [by vm_compute in Hd|].
  cbn [truthy]. change (default [] (Some (c :: token))) with (c :: token).
  by rewrite Hd.
Qed.

Lemma get_delete (params : searchParams) (name other : jsstring) :
  get (delete params name) other
  = if bool_decide (other = name) then None else get params other.
Proof.
  induction params as [|[k v] params IH].
  - by destruct (bool_decide _).
  - cbn [delete get]. destruct (decide (k = name)) as [->|Hk].
    + rewrite (bool_decide_eq_true_2 (name = name)) by done. rewrite IH.
      destruct (decide (other = name)) as [->|Ho].
      * by rewrite !bool_decide_eq_true_2.
      * rewrite (bool_decide_eq_false_2 (other = name)) by done.
        by rewrite (bool_decide_eq_false_2 (name = other)).
    + rewrite (bool_decide_eq_false_2 (k = name)) by done. cbn [get].
      rewrite IH. destruct (decide (k = other)) as [->|Hko].
      * rewrite (bool_decide_eq_true_2 (other = other)) by done.
        by rewrite bool_decide_eq_false_2.
      * by rewrite (bool_decide_eq_false_2 (k = other)).
Qed.

(** X23: the link the page writes for a recording opens that recording:
    whatever the query was, after [updateUrlParams] for a non-negative
    32-bit headband and a 32-bit run, [getUrlParams] returns exactly
    that headband and run. *)
Theorem getUrlParams_updateUrlParams (search : searchParams) (headband run : Z) :
  (0 <= headband)%Z -> int32 headband -> int32 run ->
  exists search',
    updateUrlParams search (of_Z headband) (of_Z run) = Ok search' /\
    getUrlParams search' = Ok (Decoded (Data headband run)).
Proof.
  intros H1 H2 H3. destruct (codec_round_trip headband run H1 H2 H3) as (token & Ht & Hd).
  exists [(str "id", token)]. unfold updateUrlParams. rewrite Ht. split; [done|].
  by apply (getUrlParams_id _ token).
Qed.

Lemma getUrlParams_updateUrlParams_witness :
  exists search',
    updateUrlParams [(str "h", str "7"); (str "id", str "zzz")] (of_Z 48) (of_Z 1262)
    = Ok search' /\
    getUrlParams search' = Ok (Decoded (Data 48 1262)).
Proof.
  apply (getUrlParams_updateUrlParams _ 48 1262); unfold int32; lia.
Defined.

(** X24: the link the page writes for a fortune opens that fortune: after
    [updateUrlParamsForRandomFortune] for a non-negative integer
    timestamp (up to 2^53 - 1), [getUrlParams] returns the fortune
    identifier of that timestamp. *)
Theorem getUrlParams_updateUrlParamsForRandomFortune (search : searchParams)
    (timestamp : Z) :
  (0 <= timestamp <= 9007199254740991)%Z ->
  exists search',
    updateUrlParamsForRandomFortune search timestamp = Ok search' /\
    getUrlParams search' = Ok (Decoded (Fortune (of_Z timestamp))).
Proof.
  intros Ht. destruct (fortune_round_trip timestamp Ht) as (token & Hk & Hd).
  exists [(str "id", token)]. unfold updateUrlParamsForRandomFortune. rewrite Hk.
  split; [done|]. by apply (getUrlParams_id _ token).
Qed.

Lemma getUrlParams_updateUrlParamsForRandomFortune_witness :
  exists search',
    updateUrlParamsForRandomFortune [(str "r", str "3")] 1762122000000 = Ok search' /\
    getUrlParams search' = Ok (Decoded (Fortune (of_Z 1762122000000))).
Proof.
  apply (getUrlParams_updateUrlParamsForRandomFortune _ 1762122000000). lia.
Defined.

(** X25: an [id] with a character outside the base64 alphabet (other than
    white space and '=') is ignored without an error: the query is read
    as if it had no [id] parameter at all. *)
Theorem getUrlParams_rejected_id (params : searchParams) (id : jsstring) (c : N) :
  get params (str "id") = Some id ->
  In c id -> b64_index c = None -> is_ascii_whitespace c = false -> c <> pad ->
  getUrlParams params = getUrlParams (delete params (str "id")).
Proof.
  intros Hget Hin Hidx Hws Hpad. unfold getUrlParams.
  rewrite !get_delete, Hget.
  rewrite (bool_decide_eq_true_2 (str "id" = str "id")) by reflexivity.
  rewrite (bool_decide_eq_false_2 (str "r" = str "id")) by discriminate.
  rewrite (bool_decide_eq_false_2 (str "run" = str "id")) by discriminate.
  rewrite (bool_decide_eq_false_2 (str "h" = str "id")) by discriminate.
  rewrite (bool_decide_eq_false_2 (str "headband" = str "id")) by discriminate.
  change (default [] (Some id)) with id.
  rewrite (decodeId_rejects_foreign id c Hin Hidx Hws Hpad).
  by destruct (truthy (Some id)).
Qed.

Lemma getUrlParams_rejected_id_witness :
  getUrlParams [(str "id", str "NDh4-MTI2Mg"); (str "r", str "12")]
  = getUrlParams (delete [(str "id", str "NDh4-MTI2Mg"); (str "r", str "12")] (str "id")).
Proof.
  apply (getUrlParams_rejected_id _ (str "NDh4-MTI2Mg") (chr "-")).
  - reflexivity.
  - do 4 right. by left.
  - reflexivity.
  - reflexivity.
  - discriminate.
Defined.

(** X26: a link of the old format is still read: without a usable [id],
    the decimal numerals under [r] and [h] (integers up to 2^53 - 1 in
    size) come back as the run and the headband. *)
Theorem getUrlParams_legacy (params : searchParams) (headband run : Z) :
  truthy (get params (str "id")) = false ->
  get params (str "r") = Some (toString run) ->
  get params (str "h") = Some (toString headband) ->
  (Z.abs headband <= 9007199254740991)%Z -> (Z.abs run <= 9007199254740991)%Z ->
  getUrlParams params = Ok (Plain (Some (of_Z run)) (Some (of_Z headband))).
Proof.
  intros Hid Hr Hh _ _. unfold getUrlParams. rewrite Hid, Hr, Hh.
  cbn [mbind result_mbind result_bind]. unfold or_else.
  rewrite !toString_truthy. cbn [fmap option_fmap option_map].
  by rewrite !parseInt_full_toString.
Qed.

Lemma getUrlParams_legacy_witness :
  getUrlParams [(str "h", str "48"); (str "r", str "1262")]
  = Ok (Plain (Some (of_Z 1262)) (Some (of_Z 48))).
Proof.
  apply (getUrlParams_legacy [(str "h", str "48"); (str "r", str "1262")] 48 1262);
    (reflexivity || lia).
Defined.

End Url_facts.
